(** * The order-book synchronisation hook of odrbook-3d

    A shallow embedding of [useOrderbookWebSocket] (src/app/page.tsx,
    lines 40-185): the REST snapshot loader [initializeOrderbook], the
    WebSocket handlers installed by [connectWebSocket] and the bounded
    history kept in [historicalData].

    Modelling decisions.
    - Prices and quantities are the results of [parseFloat] on the decimal
      strings of the feed.  They are only compared ([===], the sign of a
      difference), never rounded, so they are modelled as rationals [Q];
      [===] is [Qeq_bool].  Update ids and clock readings are integers [Z].
      The one arithmetic operation is the subtraction of [spread]; it is a
      parameter of the model, so that nothing depends on how it rounds.
    - JavaScript arrays are mutable and shared by reference: the state keeps
      a store [arrays] of level arrays and an [OrderbookData] object holds
      the positions of its two arrays in that store.  [slice] and [map]
      allocate; [splice], [push], [sort] and indexed assignment update the
      array in place.
    - The outside world (fetch, sockets, timers, console) is a [trace] of
      the requests the hook issued, and one function per callback the world
      may invoke.  A value given to a state setter is taken at the call:
      every render after the call sees it.  The updater function given to
      [setHistoricalData] by [onmessage] waits in [pendingHistory] until
      React renders, and reads the arrays as they are at that render.
    - One run of a callback has one clock reading.  The code reads the
      clock anew for each level of a loaded snapshot and for its history
      entry; the model stamps them alike. *)

From Stdlib Require Import QArith Lqa ZArith Lia.
From stdpp Require Import base list sorting strings.

(** ** Array.prototype, as far as the hook uses it *)

Module JSArray.
Section Methods.
Context {A : Type}.

(** [findIndex]: index of the first element satisfying [p]; [None] stands
    for the result [-1]. *)
Fixpoint findIndex (p : A -> bool) (l : list A) : option nat :=
  match l with
  | [] => None
  | x :: r => if p x then Some 0%nat else S <$> findIndex p r
  end.

(** [splice(index, 1)] *)
Definition splice1 (index : nat) (l : list A) : list A := delete index l.

(** [arr[index] = x], for an index inside the array. *)
Definition assign (index : nat) (x : A) (l : list A) : list A := <[index := x]> l.

Definition push (x : A) (l : list A) : list A := l ++ [x].

(** [sort(compareFn)] is a stable sort: an element moves in front of
    another one only when the comparator is positive on the pair. *)
Fixpoint sort_insert (compareFn : A -> A -> Q) (x : A) (l : list A) : list A :=
  match l with
  | [] => [x]
  | y :: r =>
      if Qle_bool (compareFn y x) 0 then y :: sort_insert compareFn x r
      else x :: y :: r
  end.

Definition sort (compareFn : A -> A -> Q) (l : list A) : list A :=
  foldl (fun acc x => sort_insert compareFn x acc) [] l.

(** Relative index of [slice]: negative counts from the end, and the
    result is clamped to the array. *)
Definition rel_index (len : nat) (i : Z) : nat :=
  if (i <? 0)%Z then Z.to_nat (Z.max (Z.of_nat len + i) 0)
  else Z.to_nat (Z.min i (Z.of_nat len)).

(** [slice(start, end)]; [None] is an omitted [end]. *)
Definition slice (start : Z) (end_ : option Z) (l : list A) : list A :=
  let k := rel_index (length l) start in
  let e := match end_ with
           | Some e => rel_index (length l) e
           | None => length l
           end in
  take (e - k) (drop k l).
End Methods.
End JSArray.

Import JSArray.

(** ** Types (page.tsx, lines 7-37) *)

Record OrderbookLevel := {
  price : Q;
  quantity : Q;
  timestamp : Z
}.

(** The two arrays of an [OrderbookData] object are references into the
    store. *)
Record OrderbookData := {
  bids : nat;
  asks : nat;
  lastUpdateId : Z
}.

Record HistoricalData := {
  h_timestamp : Z;
  h_bids : list OrderbookLevel;
  h_asks : list OrderbookLevel
}.

(** The depth-update message of the stream after [JSON.parse]: [U] and [u]
    are the first and the final update id, [b] and [a] the optional delta
    arrays (read with [?.]). *)
Record DepthUpdate := {
  U : Z;
  u : Z;
  b : option (list (Q * Q));
  a : option (list (Q * Q))
}.

(** The body of the REST answer after [response.json()]; a field that is
    absent (as in the error object of a refused request) is [None]. *)
Record DepthBody := {
  d_bids : option (list (Q * Q));
  d_asks : option (list (Q * Q));
  d_lastUpdateId : Z
}.

(** What [await fetch(..)] and [await response.json()] can do. *)
Inductive FetchResult :=
  | NetworkError
  | MalformedPayload (status : Z)
  | Body (status : Z) (data : DepthBody).

Inductive ReadyState := CONNECTING | OPEN | CLOSING | CLOSED.

Inductive Callback := CbConnectWebSocket.

Inductive Effect :=
  | Fetch (symbol : string)
  | NewWebSocket (symbol : string)
  | SetTimeout (callback : Callback) (delay : Z)
  | ConsoleError
  | WsCloseCall (socket : nat).

(** The state of the hook: the store of arrays, the values of the five
    [useState] and [useRef] cells as the next render will read them, the
    updaters of [historicalData] that wait for that render, and what the
    hook has asked of the world. *)
Record HookState := {
  arrays : list (list OrderbookLevel);
  orderbook : OrderbookData;
  historicalData : list HistoricalData;
  pendingHistory : list (Z * OrderbookData);
  connected : bool;
  error : option string;
  wsRef : option nat;
  orderbookRef : OrderbookData;
  sockets : list ReadyState;
  trace : list Effect
}.

(** [useState] and [useRef] initial values (lines 41-46): four distinct
    empty arrays. *)
Definition initial : HookState := {|
  arrays := [[]; []; []; []];
  orderbook := {| bids := 0; asks := 1; lastUpdateId := 0 |};
  historicalData := [];
  pendingHistory := [];
  connected := false;
  error := None;
  wsRef := None;
  orderbookRef := {| bids := 2; asks := 3; lastUpdateId := 0 |};
  sockets := [];
  trace := []
|}.

(** The arrays behind an object, read through the store. *)
Definition array_at (h : list (list OrderbookLevel)) (r : nat) : list OrderbookLevel :=
  default [] (h !! r).

Record BookView := {
  v_bids : list OrderbookLevel;
  v_asks : list OrderbookLevel;
  v_version : Z
}.

Definition view (h : list (list OrderbookLevel)) (o : OrderbookData) : BookView :=
  {| v_bids := array_at h (bids o);
     v_asks := array_at h (asks o);
     v_version := lastUpdateId o |}.

(** ** Applying one delta (lines 102-137) *)

Definition bid_order (x y : OrderbookLevel) : Q := (price y - price x)%Q.
Definition ask_order (x y : OrderbookLevel) : Q := (price x - price y)%Q.

(** The body of the [forEach] callbacks; the bid and the ask loop differ in
    the comparator only. *)
Definition apply_delta (compareFn : OrderbookLevel -> OrderbookLevel -> Q)
    (timestamp : Z) (side : list OrderbookLevel) (delta : Q * Q)
    : list OrderbookLevel :=
  let priceNum := fst delta in
  let quantityNum := snd delta in
  let index := findIndex (fun lv => Qeq_bool (price lv) priceNum) side in
  if Qeq_bool quantityNum 0 then
    match index with
    | Some i => splice1 i side
    | None => side
    end
  else
    let level := {| price := priceNum; quantity := quantityNum;
                    timestamp := timestamp |} in
    match index with
    | Some i => assign i level side
    | None => sort compareFn (push level side)
    end.

Definition update_side (compareFn : OrderbookLevel -> OrderbookLevel -> Q)
    (timestamp : Z) (deltas : option (list (Q * Q)))
    (side : list OrderbookLevel) : list OrderbookLevel :=
  foldl (apply_delta compareFn timestamp) side (default [] deltas).

Definition update_bids := update_side bid_order.
Definition update_asks := update_side ask_order.

(** ** The hook's callbacks *)

(** [setHistoricalData] updater of [onmessage] (lines 144-152). *)
Definition append_snapshot (prev : list HistoricalData) (newSnapshot : HistoricalData)
    : list HistoricalData :=
  slice (-60) None (push newSnapshot prev).

(** The updater of lines 144-152, run by React at a render.  Its closure
    holds the [timestamp] of the message and the object [updatedOrderbook];
    the two arrays of that object are read from the store as it is when the
    updater runs. *)
Definition run_updater (h : list (list OrderbookLevel)) (prev : list HistoricalData)
    (closure : Z * OrderbookData) : list HistoricalData :=
  let timestamp := fst closure in
  let updatedOrderbook := snd closure in
  let newSnapshot :=
    {| h_timestamp := timestamp;
       h_bids := slice 0 (Some 20%Z) (array_at h (bids updatedOrderbook));
       h_asks := slice 0 (Some 20%Z) (array_at h (asks updatedOrderbook)) |} in
  append_snapshot prev newSnapshot.

(** [ws.onmessage] (lines 93-153).  The spread copy [{...orderbookRef.current}]
    makes a new object whose [bids] and [asks] are the arrays of the old
    one, so the loops update those arrays in the store.  The call of
    [setHistoricalData] queues its updater. *)
Definition onmessage (data : DepthUpdate) (now : Z) (st : HookState) : HookState :=
  if (U data <=? lastUpdateId (orderbookRef st))%Z then st
  else
    let updatedOrderbook := orderbookRef st in
    let h1 := alter (update_bids now (b data)) (bids updatedOrderbook) (arrays st) in
    let h2 := alter (update_asks now (a data)) (asks updatedOrderbook) h1 in
    let updatedOrderbook :=
      {| bids := bids updatedOrderbook; asks := asks updatedOrderbook;
         lastUpdateId := u data |} in
    {| arrays := h2;
       orderbook := updatedOrderbook;
       historicalData := historicalData st;
       pendingHistory := pendingHistory st ++ [(now, updatedOrderbook)];
       connected := connected st;
       error := error st;
       wsRef := wsRef st;
       orderbookRef := updatedOrderbook;
       sockets := sockets st;
       trace := trace st |}.

(** A render: the queued updaters run in the order of their queueing. *)
Definition render (st : HookState) : HookState :=
  {| arrays := arrays st; orderbook := orderbook st;
     historicalData :=
       foldl (run_updater (arrays st)) (historicalData st) (pendingHistory st);
     pendingHistory := [];
     connected := connected st; error := error st;
     wsRef := wsRef st; orderbookRef := orderbookRef st;
     sockets := sockets st; trace := trace st |}.

(** [ws.onopen], [ws.onerror], [ws.onclose] (lines 88-91, 155-163). *)
Definition onopen (st : HookState) : HookState :=
  {| arrays := arrays st; orderbook := orderbook st;
     historicalData := historicalData st;
     pendingHistory := pendingHistory st;
     connected := true; error := None;
     wsRef := wsRef st; orderbookRef := orderbookRef st;
     sockets := sockets st; trace := trace st |}.

Definition onerror (st : HookState) : HookState :=
  {| arrays := arrays st; orderbook := orderbook st;
     historicalData := historicalData st;
     pendingHistory := pendingHistory st;
     connected := false; error := Some "WebSocket connection error"%string;
     wsRef := wsRef st; orderbookRef := orderbookRef st;
     sockets := sockets st; trace := trace st |}.

Definition onclose (st : HookState) : HookState :=
  {| arrays := arrays st; orderbook := orderbook st;
     historicalData := historicalData st;
     pendingHistory := pendingHistory st;
     connected := false; error := error st;
     wsRef := wsRef st; orderbookRef := orderbookRef st;
     sockets := sockets st;
     trace := trace st ++ [SetTimeout CbConnectWebSocket 3000] |}.

(** [connectWebSocket] (lines 82-170): nothing to do while the socket held
    by [wsRef] is open; otherwise a new socket, in state [CONNECTING], gets
    the handlers above and replaces the one in [wsRef]. *)
Definition is_open (st : HookState) : bool :=
  match wsRef st with
  | Some i => match sockets st !! i with Some OPEN => true | _ => false end
  | None => false
  end.

Definition connectWebSocket (symbol : string) (st : HookState) : HookState :=
  if is_open st then st
  else
    {| arrays := arrays st; orderbook := orderbook st;
       historicalData := historicalData st;
     pendingHistory := pendingHistory st;
       connected := connected st; error := error st;
       wsRef := Some (length (sockets st));
       orderbookRef := orderbookRef st;
       sockets := sockets st ++ [CONNECTING];
       trace := trace st ++ [NewWebSocket symbol] |}.

(** The callback of [data.bids.map(..)] over the pairs of the answer: a new
    array of levels stamped with the clock. *)
Definition to_levels (now : Z) (pairs : list (Q * Q)) : list OrderbookLevel :=
  (fun pq => {| price := fst pq; quantity := snd pq; timestamp := now |}) <$> pairs.

(** The [try] block of [initializeOrderbook] (lines 49-75), from the answer
    to the request on: [None] when an exception reaches the [catch], which
    happens when [fetch] or [json()] rejects and when [map] is called on a
    missing field.  The history is set to a value, its slices taken at the
    call; whatever updaters were queued before run on the old history and
    their result is replaced by that value, so none is left waiting. *)
Definition load_snapshot (r : FetchResult) (now : Z) (st : HookState)
    : option HookState :=
  match r with
  | NetworkError => None
  | MalformedPayload _ => None
  | Body _ data =>
      bs ← d_bids data;
      as_ ← d_asks data;
      let n := length (arrays st) in
      let initialOrderbook :=
        {| bids := n; asks := S n; lastUpdateId := d_lastUpdateId data |} in
      let h := arrays st ++ [to_levels now bs; to_levels now as_] in
      Some {| arrays := h;
              orderbook := initialOrderbook;
              historicalData :=
                [{| h_timestamp := now;
                    h_bids := slice 0 (Some 20%Z) (array_at h n);
                    h_asks := slice 0 (Some 20%Z) (array_at h (S n)) |}];
              pendingHistory := [];
              connected := connected st;
              error := error st;
              wsRef := wsRef st;
              orderbookRef := initialOrderbook;
              sockets := sockets st;
              trace := trace st |}
  end.

(** [initializeOrderbook] with its [catch] (lines 76-79). *)
Definition initializeOrderbook (r : FetchResult) (now : Z) (st : HookState)
    : HookState :=
  match load_snapshot r now st with
  | Some st' => st'
  | None =>
      {| arrays := arrays st; orderbook := orderbook st;
         historicalData := historicalData st;
     pendingHistory := pendingHistory st;
         connected := connected st;
         error := Some "Failed to initialize orderbook"%string;
         wsRef := wsRef st; orderbookRef := orderbookRef st;
         sockets := sockets st;
         trace := trace st ++ [ConsoleError] |}
  end.

(** ** The callbacks the environment may run *)

Inductive Event :=
  | Mount                                   (* the effect of lines 172-176 starts *)
  | FetchSettled (r : FetchResult) (now : Z) (* the request is answered or fails *)
  | WsOpen (socket : nat)
  | WsMessage (socket : nat) (data : DepthUpdate) (now : Z)
  | WsError (socket : nat)
  | WsClose (socket : nat)
  | TimerFires                              (* a pending [setTimeout] callback runs *)
  | Cleanup                                 (* the effect's cleanup, lines 177-181 *)
  | Render.                                 (* React renders the component *)

Definition set_readyState (i : nat) (s : ReadyState) (st : HookState) : HookState :=
  {| arrays := arrays st; orderbook := orderbook st;
     historicalData := historicalData st;
     pendingHistory := pendingHistory st;
     connected := connected st; error := error st;
     wsRef := wsRef st; orderbookRef := orderbookRef st;
     sockets := <[i := s]> (sockets st); trace := trace st |}.

Definition log (e : Effect) (st : HookState) : HookState :=
  {| arrays := arrays st; orderbook := orderbook st;
     historicalData := historicalData st;
     pendingHistory := pendingHistory st;
     connected := connected st; error := error st;
     wsRef := wsRef st; orderbookRef := orderbookRef st;
     sockets := sockets st; trace := trace st ++ [e] |}.

(** [ws.close()]: a socket that is not closed yet starts closing. *)
Definition closing (i : nat) (st : HookState) : HookState :=
  match sockets st !! i with
  | Some CLOSED | None => st
  | Some _ => set_readyState i CLOSING st
  end.

Section Hook.
Variable symbol : string.

(** The promise of [initializeOrderbook] never rejects, so the [then] of
    line 173 runs [connectWebSocket] after either outcome. *)
Definition handle (ev : Event) (st : HookState) : HookState :=
  match ev with
  | Mount => log (Fetch symbol) st
  | FetchSettled r now => connectWebSocket symbol (initializeOrderbook r now st)
  | WsOpen i => onopen (set_readyState i OPEN st)
  | WsMessage _ data now => onmessage data now st
  | WsError _ => onerror st
  | WsClose i => onclose (set_readyState i CLOSED st)
  | TimerFires => connectWebSocket symbol st
  | Cleanup =>
      match wsRef st with
      | Some i => log (WsCloseCall i) (closing i st)
      | None => st
      end
  | Render => render st
  end.

Definition run (evs : list Event) (st : HookState) : HookState :=
  foldl (fun s ev => handle ev s) st evs.
End Hook.


(** ** Order on a side *)

Definition Qlt_bool (x y : Q) : bool := negb (Qle_bool y x).

(** Every price stands [before] all the prices behind it. *)
Fixpoint strictly_sorted (before : Q -> Q -> bool) (ps : list Q) : bool :=
  match ps with
  | [] => true
  | p :: r => forallb (before p) r && strictly_sorted before r
  end.

(** Bids: strictly descending prices. *)
Definition descending (l : list OrderbookLevel) : bool :=
  strictly_sorted (fun p q => Qlt_bool q p) (price <$> l).

(** Asks: strictly ascending prices. *)
Definition ascending (l : list OrderbookLevel) : bool :=
  strictly_sorted Qlt_bool (price <$> l).

(** Two levels are in order for a comparator when it is negative on them. *)
Definition in_order (compareFn : OrderbookLevel -> OrderbookLevel -> Q)
    (x y : OrderbookLevel) : Prop := (compareFn x y < 0)%Q.

Definition no_duplicate_prices (l : list OrderbookLevel) : Prop :=
  forall i j x y, l !! i = Some x -> l !! j = Some y ->
    (price x == price y)%Q -> i = j.

Definition has_price (p : Q) (l : list OrderbookLevel) : bool :=
  existsb (fun lv => Qeq_bool (price lv) p) l.

Inductive Side := Bid | Ask.

Definition comparator (s : Side) : OrderbookLevel -> OrderbookLevel -> Q :=
  match s with Bid => bid_order | Ask => ask_order end.

Definition side_sorted (s : Side) (l : list OrderbookLevel) : bool :=
  match s with Bid => descending l | Ask => ascending l end.

(** What a delta [(price, quantity)] has to do to a side [l]: with quantity
    0 the level at that price is gone, the rest is kept and nothing is added;
    otherwise the new level is in, alone at its price, and the rest is kept. *)
Definition delta_contract (ts : Z) (l : list OrderbookLevel) (d : Q * Q)
    (result : list OrderbookLevel) : Prop :=
  if Qeq_bool (snd d) 0 then
    (forall z, z ∈ result <-> z ∈ l /\ ~ (price z == fst d)%Q) /\
    (has_price (fst d) l = false -> result = l)
  else
    forall z, z ∈ result <->
      z = {| price := fst d; quantity := snd d; timestamp := ts |} \/
      (z ∈ l /\ ~ (price z == fst d)%Q).

(** ** Observations of a state *)

(** The live book: the object in [orderbookRef], read through the store. *)
Definition book (st : HookState) : BookView := view (arrays st) (orderbookRef st).

(** The two arrays of the live book are different arrays of the store. *)
Definition refs_ok (st : HookState) : Prop :=
  bids (orderbookRef st) <> asks (orderbookRef st) /\
  (bids (orderbookRef st) < length (arrays st))%nat /\
  (asks (orderbookRef st) < length (arrays st))%nat.

Definition book_ordered (st : HookState) : Prop :=
  side_sorted Bid (v_bids (book st)) = true /\
  side_sorted Ask (v_asks (book st)) = true.

(** A history entry holds at most 20 levels a side. *)
Definition top20 (s : HistoricalData) : Prop :=
  (length (h_bids s) <= 20)%nat /\ (length (h_asks s) <= 20)%nat.

(** The snapshot taken of a book: the first 20 levels of each side. *)
Definition snapshot_of (now : Z) (v : BookView) : HistoricalData :=
  {| h_timestamp := now; h_bids := take 20 (v_bids v); h_asks := take 20 (v_asks v) |}.

(** The socket held by [wsRef] closes, and the timer set by its [onclose]
    fires. *)
Definition reconnect_cycle (symbol : string) (st : HookState) : HookState :=
  match wsRef st with
  | Some i => handle symbol TimerFires (handle symbol (WsClose i) st)
  | None => st
  end.

(** The outcomes that take [initializeOrderbook] to its [catch]: the request
    rejects, the body is not JSON, or [bids] or [asks] is missing from it.
    The status of the answer is not looked at. *)
Definition fetch_failed (r : FetchResult) : bool :=
  match r with
  | NetworkError => true
  | MalformedPayload _ => true
  | Body _ data =>
      match d_bids data, d_asks data with
      | Some _, Some _ => false
      | _, _ => true
      end
  end.

(** ** Inputs of the examples *)

Definition level (p q : Q) (ts : Z) : OrderbookLevel :=
  {| price := p; quantity := q; timestamp := ts |}.

(** Scenario A of the specification. *)
Definition snapshot_A : FetchResult :=
  Body 200 {| d_bids := Some [(100, 2)%Q]; d_asks := Some [(101, 3)%Q];
              d_lastUpdateId := 5 |}.

Definition diff_A : DepthUpdate :=
  {| U := 6; u := 6; b := Some [(100, 0)%Q]; a := Some [] |}.

(** A book at version 10 with an open socket (scenarios B and C). *)
Definition snapshot_v10 : FetchResult :=
  Body 200 {| d_bids := Some [(100, 2)%Q]; d_asks := Some [(101, 3)%Q];
              d_lastUpdateId := 10 |}.

Definition live_v10 : HookState :=
  run "BTCUSDT" [Mount; FetchSettled snapshot_v10 1000; WsOpen 0] initial.

Definition diff_gap : DepthUpdate :=
  {| U := 12; u := 12; b := Some [(99, 1)%Q]; a := None |}.

Definition diff_duplicate : DepthUpdate :=
  {| U := 10; u := 10; b := Some [(100, 7)%Q]; a := None |}.


(** Two messages that follow the snapshot of scenario A. *)
Definition diff_B : DepthUpdate :=
  {| U := 6; u := 6; b := Some [(99, 1)%Q]; a := None |}.

Definition diff_C : DepthUpdate :=
  {| U := 7; u := 7; b := Some [(100.5, 4)%Q; (99, 0)%Q]; a := Some [(102, 1)%Q] |}.

Definition diff_first : DepthUpdate :=
  {| U := 1; u := 1; b := Some [(100, 7)%Q]; a := None |}.

(** ** The admission rule in the words of the specification *)



(** A snapshot whose sides come in the order of the book. *)
Definition snapshot_ordered (r : FetchResult) : bool :=
  match r with
  | Body _ data =>
      strictly_sorted (fun p q => Qlt_bool q p) (fst <$> default [] (d_bids data))
      && strictly_sorted Qlt_bool (fst <$> default [] (d_asks data))
  | _ => true
  end.

Definition event_ordered (ev : Event) : bool :=
  match ev with
  | FetchSettled r _ => snapshot_ordered r
  | _ => true
  end.

(** Events in the life of one book: no snapshot is loaded, and the update
    ids of a message are a range. *)
Definition same_book (ev : Event) : bool :=
  match ev with
  | FetchSettled _ _ => false
  | WsMessage _ data _ => (U data <=? u data)%Z
  | _ => true
  end.

(** ** Measures of a run *)



(** Every updater that waits holds an object with the arrays of the live
    book. *)
Definition pending_live (st : HookState) : Prop :=
  Forall (fun closure =>
            bids (snd closure) = bids (orderbookRef st) /\
            asks (snd closure) = asks (orderbookRef st))
         (pendingHistory st).

(** An entry of the history with its sides in the order of the book. *)
Definition entry_ordered (s : HistoricalData) : Prop :=
  descending (h_bids s) = true /\ ascending (h_asks s) = true.

(** The history a render makes when every waiting updater reads the book
    [v]: one snapshot of [v] for each timestamp. *)
Definition render_of (v : BookView) (prev : list HistoricalData) (ts : list Z)
    : list HistoricalData :=
  foldl (fun h t => append_snapshot h (snapshot_of t v)) prev ts.

(** The object shown is the object of the live book, or the hook has not
    yet loaded a snapshot nor applied a message. *)
Definition shows_live (st : HookState) : Prop :=
  orderbook st = orderbookRef st \/
  (orderbook st = orderbook initial /\ orderbookRef st = orderbookRef initial /\
   arrays st = arrays initial).

Fixpoint count {A : Type} (p : A -> bool) (l : list A) : nat :=
  match l with
  | [] => 0
  | x :: r => (if p x then 1 else 0) + count p r
  end.

Definition is_fetch (e : Effect) : bool :=
  match e with Fetch _ => true | _ => false end.

Definition is_new_socket (e : Effect) : bool :=
  match e with NewWebSocket _ => true | _ => false end.

Definition is_timeout (e : Effect) : bool :=
  match e with SetTimeout _ _ => true | _ => false end.

Definition is_mount (ev : Event) : bool :=
  match ev with Mount => true | _ => false end.

Definition is_close (ev : Event) : bool :=
  match ev with WsClose _ => true | _ => false end.

(** What a state has asked of the world so far. *)
Definition fetches (st : HookState) : nat := count is_fetch (trace st).
Definition timers (st : HookState) : nat := count is_timeout (trace st).
Definition opened (st : HookState) : nat := count is_new_socket (trace st).

(** The socket in [wsRef], if any, is one of the sockets made. *)
Definition ws_valid (st : HookState) : Prop :=
  match wsRef st with
  | Some i => (i < length (sockets st))%nat
  | None => True
  end.

(** The measures before and after a step that makes [f] requests, sets [t]
    timers and opens [o] sockets. *)
Definition accounted (f t o : nat) (st st' : HookState) : Prop :=
  fetches st' = (fetches st + f)%nat /\
  timers st' = (timers st + t)%nat /\
  opened st' = (opened st + o)%nat /\
  length (sockets st') = (length (sockets st) + o)%nat /\
  (ws_valid st -> ws_valid st').



(** ** The main component (page.tsx, lines 520-560, 646, 652) *)

Module Venues.

Record Venue := {
  id : string;
  name : string;
  color : string;
  enabled : bool
}.

(** The initial value of the [venues] state (lines 529-534). *)
Definition venues : list Venue :=
  [ {| id := "binance"; name := "Binance"; color := "#f0b90b"; enabled := true |};
    {| id := "okx"; name := "OKX"; color := "#00d4aa"; enabled := false |};
    {| id := "bybit"; name := "Bybit"; color := "#f7a600"; enabled := false |};
    {| id := "deribit"; name := "Deribit"; color := "#1e3a8a"; enabled := false |} ].

(** The updater of [toggleVenue] (lines 538-542). *)
Definition toggleVenue (venueId : string) (prev : list Venue) : list Venue :=
  (fun venue =>
     if String.eqb (id venue) venueId
     then {| id := id venue; name := name venue; color := color venue;
             enabled := negb (enabled venue) |}
     else venue) <$> prev.

End Venues.

(** [Math.max(x, ...xs)] and [Math.min(x, ...xs)] on at least one argument. *)
Definition Math_max (x : Q) (xs : list Q) : Q :=
  foldl (fun m y => if Qlt_bool m y then y else m) x xs.

Definition Math_min (x : Q) (xs : list Q) : Q :=
  foldl (fun m y => if Qlt_bool y m then y else m) x xs.

(** The locals [bestBid] and [bestAsk] of [spread] (lines 551-552); the
    statistics panel computes the same two numbers and then formats them
    with [toFixed(2)] (lines 646 and 652), which is not modelled.  [None]
    on an empty side, where the code computes neither. *)
Definition bestBid (orderbook : BookView) : option Q :=
  match price <$> v_bids orderbook with
  | [] => None
  | p :: ps => Some (Math_max p ps)
  end.

Definition bestAsk (orderbook : BookView) : option Q :=
  match price <$> v_asks orderbook with
  | [] => None
  | p :: ps => Some (Math_min p ps)
  end.

(** [spread] (lines 549-554): 0 when a side is empty.  [minus] is the
    subtraction of two doubles of line 553, whatever its rounding. *)
Definition spread (minus : Q -> Q -> Q) (orderbook : BookView) : Q :=
  match bestBid orderbook, bestAsk orderbook with
  | Some bid, Some ask => minus ask bid
  | _, _ => 0%Q
  end.

(** ** The scales of the drawing (lines 403-416) *)

(** [priceRange]: [None] is the return of line 405 on a book without
    levels; otherwise the pair [(min, max)]. *)
Definition priceRange (orderbook : BookView) : option (Q * Q) :=
  match price <$> (v_bids orderbook ++ v_asks orderbook) with
  | [] => None
  | p :: ps => Some (Math_min p ps, Math_max p ps)
  end.

Definition allQuantities (historicalData : list HistoricalData) : list Q :=
  flat_map (fun snapshot => quantity <$> (h_bids snapshot ++ h_asks snapshot))
           historicalData.

(** [Math.max(...allQuantities, 1)] *)
Definition maxQuantity (historicalData : list HistoricalData) : Q :=
  match allQuantities historicalData with
  | [] => Math_max 1 []
  | q :: qs => Math_max q (qs ++ [1%Q])
  end.




(** * Facts about the array methods *)

Section ArrayFacts.
Context {A : Type}.
Implicit Types l : list A.

Lemma slice_prefix (n : nat) l : slice 0 (Some (Z.of_nat n)) l = take n l.
Proof.
  unfold slice, rel_index. simpl.
  replace (Z.to_nat (Z.min 0 (Z.of_nat (length l)))) with 0%nat by lia.
  rewrite (proj2 (Z.ltb_ge (Z.of_nat n) 0)) by lia.
  rewrite Nat.sub_0_r, drop_0.
  destruct (le_lt_dec n (length l)) as [Hle|Hlt].
  - f_equal. lia.
  - replace (Z.to_nat (Z.min (Z.of_nat n) (Z.of_nat (length l)))) with (length l) by lia.
    rewrite !take_ge by lia. reflexivity.
Qed.

Lemma slice_suffix (n : nat) l :
  (0 < n)%nat -> slice (- Z.of_nat n) None l = drop (length l - n) l.
Proof.
  intros Hn. unfold slice, rel_index.
  rewrite (proj2 (Z.ltb_lt (- Z.of_nat n) 0)) by lia.
  replace (Z.to_nat (Z.max (Z.of_nat (length l) + - Z.of_nat n) 0))
    with (length l - n)%nat by lia.
  apply take_ge. rewrite length_drop. lia.
Qed.

Lemma findIndex_Some_split (p : A -> bool) l i :
  findIndex p l = Some i ->
  exists l1 x l2, l = l1 ++ x :: l2 /\ p x = true /\
    Forall (fun z => p z = false) l1 /\
    splice1 i l = l1 ++ l2 /\
    forall y, assign i y l = l1 ++ y :: l2.
Proof.
  revert i. induction l as [|z l IH]; intros i; simpl; [discriminate|].
  destruct (p z) eqn:Hz.
  - intros [= <-]. exists [], z, l. repeat split; auto.
  - destruct (findIndex p l) as [j|] eqn:Hj; simpl; [|discriminate].
    intros [= <-]. destruct (IH j eq_refl) as (l1 & x & l2 & -> & Hx & Hl1 & Hd & Ha).
    exists (z :: l1), x, l2. repeat split; auto.
    + unfold splice1 in *. simpl. f_equal. exact Hd.
    + intros y. unfold assign in *. simpl. f_equal. apply Ha.
Qed.

Lemma findIndex_None (p : A -> bool) l :
  findIndex p l = None -> Forall (fun z => p z = false) l.
Proof.
  induction l as [|z l IH]; simpl; [constructor|].
  destruct (p z) eqn:Hz; [discriminate|].
  destruct (findIndex p l); simpl; [discriminate|].
  intros _. constructor; auto.
Qed.

Lemma sort_snoc (cmp : A -> A -> Q) l x :
  sort cmp (l ++ [x]) = sort_insert cmp x (sort cmp l).
Proof. unfold sort. rewrite foldl_app. reflexivity. Qed.

Lemma sort_insert_last (cmp : A -> A -> Q) x l :
  Forall (fun y => (cmp y x <= 0)%Q) l -> sort_insert cmp x l = l ++ [x].
Proof.
  induction 1 as [|y l Hy _ IH]; simpl; [reflexivity|].
  apply Qle_bool_iff in Hy. rewrite Hy, IH. reflexivity.
Qed.

(** Sorting an array that is in order already leaves it as it is. *)
Lemma sort_in_order (cmp : A -> A -> Q) l :
  StronglySorted (fun x y => (cmp x y <= 0)%Q) l -> sort cmp l = l.
Proof.
  induction l as [|x l IH] using rev_ind; intros Hs; [reflexivity|].
  apply StronglySorted_app in Hs as (Hlt & Hl & _).
  rewrite sort_snoc, IH by assumption.
  apply sort_insert_last, Forall_forall. intros y Hy.
  apply Hlt; [exact Hy|]. apply list_elem_of_singleton. reflexivity.
Qed.

Lemma elem_of_sort_insert (cmp : A -> A -> Q) x l z :
  z ∈ sort_insert cmp x l <-> z = x \/ z ∈ l.
Proof.
  induction l as [|y l IH]; simpl.
  - rewrite list_elem_of_singleton, elem_of_nil. tauto.
  - destruct (Qle_bool (cmp y x) 0).
    + rewrite !elem_of_cons, IH. tauto.
    + rewrite !elem_of_cons. tauto.
Qed.

Lemma StronglySorted_lookup_lt (R : A -> A -> Prop) l i j x y :
  StronglySorted R l -> (i < j)%nat ->
  l !! i = Some x -> l !! j = Some y -> R x y.
Proof.
  intros Hl. revert i j. induction Hl as [|z l Hl IH Hz]; intros i j Hij Hi Hj.
  - discriminate.
  - destruct j as [|j]; [lia|]. simpl in Hj. destruct i as [|i]; simpl in Hi.
    + injection Hi as ->. rewrite Forall_forall in Hz.
      apply Hz. eapply list_elem_of_lookup_2. exact Hj.
    + apply (IH i j); [lia|assumption|assumption].
Qed.
End ArrayFacts.

(** * One delta on one side

    The bid and the ask loop are the same code up to the comparator, so the
    facts are proved once, for a comparator that is a function of the two
    prices, antisymmetric, transitive, and zero exactly on equal prices. *)

Section SideFacts.
Variable cmp : OrderbookLevel -> OrderbookLevel -> Q.
Hypothesis cmp_flip : forall x y, (cmp y x == - cmp x y)%Q.
Hypothesis cmp_trans : forall x y z, (cmp x y < 0)%Q -> (cmp y z < 0)%Q -> (cmp x z < 0)%Q.
Hypothesis cmp_price : forall x x' y y',
  (price x == price x')%Q -> (price y == price y')%Q -> (cmp x y == cmp x' y')%Q.
Hypothesis cmp_zero : forall x y, (cmp x y == 0)%Q <-> (price x == price y)%Q.

Local Abbreviation in_order := (in_order cmp).

Lemma in_order_price x y : in_order x y -> ~ (price x == price y)%Q.
Proof. unfold in_order. intros H E. apply cmp_zero in E. lra. Qed.

Lemma in_order_flip x y : in_order x y -> ~ (price y == price x)%Q.
Proof. intros H E. apply (in_order_price x y H). symmetry. exact E. Qed.

Lemma sort_insert_in_order x l :
  StronglySorted in_order l ->
  Forall (fun y => ~ (price y == price x)%Q) l ->
  StronglySorted in_order (sort_insert cmp x l).
Proof.
  induction 1 as [|y l Hl IH Hy]; intros Hne; simpl.
  - repeat constructor.
  - apply Forall_cons in Hne as [Hyx Hne].
    assert (Hnz : ~ (cmp y x == 0)%Q) by (rewrite cmp_zero; exact Hyx).
    destruct (Qle_bool (cmp y x) 0) eqn:Hc.
    + apply Qle_bool_iff in Hc. constructor; [apply IH; exact Hne|].
      apply Forall_forall. intros z Hz. apply elem_of_sort_insert in Hz as [->|Hz].
      * unfold in_order. lra.
      * rewrite Forall_forall in Hy. apply Hy, Hz.
    + assert (Hgt : (0 < cmp y x)%Q).
      { destruct (Qlt_le_dec 0 (cmp y x)) as [?|Hle]; [assumption|].
        apply Qle_bool_iff in Hle. congruence. }
      assert (Hxy : in_order x y).
      { unfold in_order. pose proof (cmp_flip y x). pose proof (cmp_flip x y). lra. }
      constructor; [constructor; assumption|].
      constructor; [exact Hxy|].
      eapply Forall_impl; [exact Hy|]. intros z Hz. eapply cmp_trans; eassumption.
Qed.

Lemma in_order_weaken l :
  StronglySorted in_order l -> StronglySorted (fun x y => (cmp x y <= 0)%Q) l.
Proof.
  induction 1 as [|y l Hl IH Hy]; constructor; [exact IH|].
  eapply Forall_impl; [exact Hy|]. unfold in_order. intros z Hz. lra.
Qed.

(** [push] followed by [sort] puts a level with a new price in its place. *)
Lemma push_sort_in_order x l :
  StronglySorted in_order l ->
  Forall (fun y => ~ (price y == price x)%Q) l ->
  sort cmp (push x l) = sort_insert cmp x l /\
  StronglySorted in_order (sort cmp (push x l)).
Proof.
  intros Hl Hne. unfold push.
  rewrite sort_snoc, (sort_in_order cmp l) by (apply in_order_weaken, Hl).
  split; [reflexivity|]. apply sort_insert_in_order; assumption.
Qed.

Lemma in_order_middle l1 x l2 :
  StronglySorted in_order (l1 ++ x :: l2) ->
  StronglySorted in_order (l1 ++ l2) /\
  Forall (fun z => ~ (price z == price x)%Q) (l1 ++ l2) /\
  forall y, (price y == price x)%Q -> StronglySorted in_order (l1 ++ y :: l2).
Proof.
  intros Hs. apply StronglySorted_app in Hs as (H12 & H1 & H2x).
  apply StronglySorted_cons in H2x as [Hx2 H2].
  assert (H1x : forall z, z ∈ l1 -> in_order z x).
  { intros z Hz. apply H12; [exact Hz|]. apply elem_of_cons. left. reflexivity. }
  assert (H1l2 : forall z w, z ∈ l1 -> w ∈ l2 -> in_order z w).
  { intros z w Hz Hw. apply H12; [exact Hz|]. apply elem_of_cons. right. exact Hw. }
  rewrite Forall_forall in Hx2.
  split; [|split].
  - apply StronglySorted_app. auto.
  - apply Forall_forall. intros z Hz. apply elem_of_app in Hz as [Hz|Hz].
    + apply in_order_price, H1x, Hz.
    + apply in_order_flip, Hx2, Hz.
  - intros y Hy. apply StronglySorted_app. split; [|split; [exact H1|]].
    + intros z w Hz Hw. apply elem_of_cons in Hw as [->|Hw]; [|auto].
      unfold in_order. rewrite (cmp_price z z y x) by (reflexivity || exact Hy).
      apply H1x, Hz.
    + apply StronglySorted_cons. split; [|exact H2].
      apply Forall_forall. intros w Hw. unfold in_order.
      rewrite (cmp_price y x w w) by (reflexivity || exact Hy).
      apply Hx2, Hw.
Qed.

Lemma findIndex_price_None p (l : list OrderbookLevel) :
  findIndex (fun lv => Qeq_bool (price lv) p) l = None ->
  Forall (fun y => ~ (price y == p)%Q) l.
Proof.
  intros H. apply findIndex_None in H. eapply Forall_impl; [exact H|].
  simpl. intros y Hy E. apply Qeq_bool_iff in E. congruence.
Qed.

(** Whatever the delta, a side that is in order stays in order. *)
Lemma apply_delta_in_order ts l d :
  StronglySorted in_order l -> StronglySorted in_order (apply_delta cmp ts l d).
Proof.
  intros Hl. unfold apply_delta.
  destruct (findIndex _ l) as [i|] eqn:Hi.
  - apply findIndex_Some_split in Hi as (l1 & x & l2 & -> & Hx & _ & Hd & Ha).
    apply Qeq_bool_iff in Hx. apply in_order_middle in Hl as (Hdel & _ & Hrep).
    destruct (Qeq_bool (snd d) 0).
    + rewrite Hd. exact Hdel.
    + rewrite Ha. apply Hrep. simpl. symmetry. exact Hx.
  - apply findIndex_price_None in Hi.
    destruct (Qeq_bool (snd d) 0); [exact Hl|].
    apply push_sort_in_order; [exact Hl|]. exact Hi.
Qed.

(** Quantity 0: the level at that price, if any, is gone and the others are
    kept. *)
Lemma apply_delta_remove ts l d z :
  StronglySorted in_order l -> (snd d == 0)%Q ->
  (z ∈ apply_delta cmp ts l d <-> z ∈ l /\ ~ (price z == fst d)%Q).
Proof.
  intros Hl Hq. unfold apply_delta. apply Qeq_bool_iff in Hq. rewrite Hq.
  destruct (findIndex _ l) as [i|] eqn:Hi.
  - apply findIndex_Some_split in Hi as (l1 & x & l2 & -> & Hx & _ & Hd & _).
    apply Qeq_bool_iff in Hx. apply in_order_middle in Hl as (_ & Hne & _).
    rewrite Hd. rewrite Forall_forall in Hne.
    rewrite !elem_of_app, elem_of_cons. split.
    + intros Hz. split; [tauto|]. intros E. apply (Hne z).
      * apply elem_of_app. exact Hz.
      * rewrite E, Hx. reflexivity.
    + intros [[?|[->|?]] Hp]; auto. contradiction.
  - apply findIndex_price_None in Hi. rewrite Forall_forall in Hi.
    split; [|tauto]. intros Hz. split; [exact Hz|]. apply Hi, Hz.
Qed.

Lemma apply_delta_absent ts l d :
  (snd d == 0)%Q -> has_price (fst d) l = false -> apply_delta cmp ts l d = l.
Proof.
  intros Hq Hp. unfold apply_delta. apply Qeq_bool_iff in Hq. rewrite Hq.
  destruct (findIndex _ l) as [i|] eqn:Hi; [|reflexivity].
  apply findIndex_Some_split in Hi as (l1 & x & l2 & -> & Hx & _).
  unfold has_price in Hp. rewrite existsb_app in Hp. simpl in Hp.
  rewrite Hx in Hp. simpl in Hp. rewrite orb_true_r in Hp. discriminate.
Qed.

(** Quantity other than 0: the new level is there, it is the only one at
    its price, and the levels at other prices are kept. *)
Lemma apply_delta_upsert ts l d z :
  StronglySorted in_order l -> ~ (snd d == 0)%Q ->
  (z ∈ apply_delta cmp ts l d <->
   z = {| price := fst d; quantity := snd d; timestamp := ts |} \/
   (z ∈ l /\ ~ (price z == fst d)%Q)).
Proof.
  intros Hl Hq. unfold apply_delta.
  destruct (Qeq_bool (snd d) 0) eqn:Hq0; [apply Qeq_bool_iff in Hq0; contradiction|].
  destruct (findIndex _ l) as [i|] eqn:Hi.
  - apply findIndex_Some_split in Hi as (l1 & x & l2 & -> & Hx & _ & _ & Ha).
    apply Qeq_bool_iff in Hx. apply in_order_middle in Hl as (_ & Hne & _).
    rewrite Ha. rewrite Forall_forall in Hne.
    rewrite !elem_of_app, !elem_of_cons. split.
    + intros [Hz|[->|Hz]]; [right|left; reflexivity|right].
      * split; [tauto|]. intros E. apply (Hne z); [apply elem_of_app; tauto|].
        rewrite E, Hx. reflexivity.
      * split; [tauto|]. intros E. apply (Hne z); [apply elem_of_app; tauto|].
        rewrite E, Hx. reflexivity.
    + intros [->|[[?|[->|?]] Hp]]; auto. contradiction.
  - apply findIndex_price_None in Hi.
    destruct (push_sort_in_order {| price := fst d; quantity := snd d; timestamp := ts |}
                l Hl Hi) as [-> _].
    rewrite elem_of_sort_insert. rewrite Forall_forall in Hi.
    split.
    + intros [->|Hz]; [left; reflexivity|right]. split; [exact Hz|]. apply Hi, Hz.
    + intros [->|[Hz _]]; [left|right]; auto.
Qed.

Lemma update_side_in_order ts deltas l :
  StronglySorted in_order l -> StronglySorted in_order (update_side cmp ts deltas l).
Proof.
  unfold update_side. generalize (default [] deltas). intros ds. revert l.
  induction ds as [|d ds IH]; intros l Hl; simpl; [exact Hl|].
  apply IH, apply_delta_in_order, Hl.
Qed.

Lemma in_order_no_duplicate_prices l :
  StronglySorted in_order l -> no_duplicate_prices l.
Proof.
  intros Hl i j x y Hi Hj E.
  destruct (Nat.lt_trichotomy i j) as [Hlt|[?|Hlt]]; [exfalso|assumption|exfalso].
  - apply (in_order_price x y); [|exact E].
    eapply StronglySorted_lookup_lt in Hl; eauto.
  - apply (in_order_flip y x); [|exact E].
    eapply StronglySorted_lookup_lt in Hl; eauto.
Qed.
End SideFacts.

(** * The bid side and the ask side *)

Lemma Qlt_bool_iff x y : Qlt_bool x y = true <-> (x < y)%Q.
Proof.
  unfold Qlt_bool. rewrite negb_true_iff. split.
  - intros H. destruct (Qlt_le_dec x y) as [?|Hle]; [assumption|].
    apply Qle_bool_iff in Hle. congruence.
  - intros H. destruct (Qle_bool y x) eqn:E; [|reflexivity].
    apply Qle_bool_iff in E. lra.
Qed.

Lemma forallb_prices before (R : OrderbookLevel -> OrderbookLevel -> Prop) x l :
  (forall y, before (price x) (price y) = true <-> R x y) ->
  forallb (before (price x)) (price <$> l) = true <-> Forall (R x) l.
Proof.
  intros HR. induction l as [|y l IH]; csimpl.
  - split; [constructor|reflexivity].
  - rewrite andb_true_iff, Forall_cons, IH, HR. reflexivity.
Qed.

Lemma strictly_sorted_levels before (R : OrderbookLevel -> OrderbookLevel -> Prop) l :
  (forall x y, before (price x) (price y) = true <-> R x y) ->
  strictly_sorted before (price <$> l) = true <-> StronglySorted R l.
Proof.
  intros HR. induction l as [|x l IH].
  - split; [constructor|reflexivity].
  - csimpl.
    rewrite andb_true_iff, StronglySorted_cons, IH, (forallb_prices before R) by auto.
    reflexivity.
Qed.

Lemma side_sorted_spec s l :
  side_sorted s l = true <-> StronglySorted (in_order (comparator s)) l.
Proof.
  destruct s; simpl; unfold descending, ascending; apply strictly_sorted_levels;
    intros x y; rewrite Qlt_bool_iff; unfold in_order, bid_order, ask_order;
    split; intros; lra.
Qed.

Lemma comparator_flip s x y : (comparator s y x == - comparator s x y)%Q.
Proof. destruct s; simpl; unfold bid_order, ask_order; lra. Qed.

Lemma comparator_trans s x y z :
  (comparator s x y < 0)%Q -> (comparator s y z < 0)%Q -> (comparator s x z < 0)%Q.
Proof. destruct s; simpl; unfold bid_order, ask_order; lra. Qed.

Lemma comparator_price s x x' y y' :
  (price x == price x')%Q -> (price y == price y')%Q ->
  (comparator s x y == comparator s x' y')%Q.
Proof. destruct s; simpl; unfold bid_order, ask_order; lra. Qed.

Lemma comparator_zero s x y :
  (comparator s x y == 0)%Q <-> (price x == price y)%Q.
Proof. destruct s; simpl; unfold bid_order, ask_order; split; lra. Qed.

Ltac comparator_facts :=
  first [ apply comparator_flip | apply comparator_trans
        | apply comparator_price | apply comparator_zero ].

Lemma update_side_sorted s ts deltas l :
  side_sorted s l = true -> side_sorted s (update_side (comparator s) ts deltas l) = true.
Proof.
  rewrite !side_sorted_spec.
  apply update_side_in_order; comparator_facts.
Qed.

Lemma sorted_no_duplicate_prices s l :
  side_sorted s l = true -> no_duplicate_prices l.
Proof.
  rewrite side_sorted_spec.
  apply in_order_no_duplicate_prices; comparator_facts.
Qed.

Lemma has_price_false p l :
  has_price p l = false <-> Forall (fun z => ~ (price z == p)%Q) l.
Proof.
  unfold has_price. induction l as [|x l IH]; simpl.
  - split; [constructor|reflexivity].
  - rewrite orb_false_iff, Forall_cons, IH. split; intros [Hx Hl]; split; auto.
    + intros E. apply Qeq_bool_iff in E. congruence.
    + destruct (Qeq_bool (price x) p) eqn:E; [|reflexivity].
      apply Qeq_bool_iff in E. contradiction.
Qed.

(** C5.  On a side that is in order (bids descending, asks ascending), a
    delta with quantity 0 removes the level at its price when there is one
    and changes nothing when there is none, so a level with quantity 0 is
    never inserted; a delta with another quantity inserts its level, or
    puts it in the place of the level at that price, and keeps the other
    levels.  Either way the side is in order afterwards. *)
Theorem upsert_contract (s : Side) (ts : Z) (l : list OrderbookLevel) (d : Q * Q) :
  side_sorted s l = true ->
  side_sorted s (apply_delta (comparator s) ts l d) = true /\
  delta_contract ts l d (apply_delta (comparator s) ts l d) /\
  has_price (fst d) (apply_delta (comparator s) ts l d) = negb (Qeq_bool (snd d) 0).
Proof.
  intros Hs. pose proof Hs as Hl. rewrite side_sorted_spec in Hl.
  assert (Hres : StronglySorted (in_order (comparator s))
                   (apply_delta (comparator s) ts l d)).
  { apply apply_delta_in_order; try comparator_facts. exact Hl. }
  assert (Hc : delta_contract ts l d (apply_delta (comparator s) ts l d)).
  { unfold delta_contract. destruct (Qeq_bool (snd d) 0) eqn:Hq.
    - apply Qeq_bool_iff in Hq. split.
      + intros z. apply apply_delta_remove; try comparator_facts; assumption.
      + apply apply_delta_absent. exact Hq.
    - intros z. apply apply_delta_upsert; try comparator_facts; try assumption.
      intros E. apply Qeq_bool_iff in E. congruence. }
  split; [apply side_sorted_spec, Hres|]. split; [exact Hc|].
  unfold delta_contract in Hc. destruct (Qeq_bool (snd d) 0) eqn:Hq; simpl.
  - destruct Hc as [Hc _]. apply has_price_false, Forall_forall.
    intros z Hz. apply Hc in Hz. tauto.
  - destruct (has_price (fst d) (apply_delta (comparator s) ts l d)) eqn:Hp;
      [reflexivity|exfalso].
    rewrite has_price_false, Forall_forall in Hp.
    apply (Hp {| price := fst d; quantity := snd d; timestamp := ts |}).
    + apply Hc. left. reflexivity.
    + simpl. reflexivity.
Qed.

Lemma upsert_contract_witness :
  side_sorted Bid (apply_delta (comparator Bid) 7
    [{| price := 99.5; quantity := 4; timestamp := 0 |}] (100.5, 1)%Q) = true /\
  delta_contract 7 [{| price := 99.5; quantity := 4; timestamp := 0 |}] (100.5, 1)%Q
    (apply_delta (comparator Bid) 7
       [{| price := 99.5; quantity := 4; timestamp := 0 |}] (100.5, 1)%Q) /\
  has_price (fst (100.5, 1)%Q) (apply_delta (comparator Bid) 7
    [{| price := 99.5; quantity := 4; timestamp := 0 |}] (100.5, 1)%Q)
  = negb (Qeq_bool (snd (100.5, 1)%Q) 0).
Proof.
  apply (upsert_contract Bid 7 [{| price := 99.5; quantity := 4; timestamp := 0 |}]
           (100.5, 1)%Q).
  reflexivity.
Defined.

(** * The store and the callbacks *)

Lemma array_at_alter_eq f h i :
  (i < length h)%nat -> array_at (alter f i h) i = f (array_at h i).
Proof.
  intros Hi. unfold array_at. rewrite list_lookup_alter_eq.
  destruct (lookup_lt_is_Some_2 h i Hi) as [x ->]. reflexivity.
Qed.

Lemma array_at_alter_ne f h i j :
  i <> j -> array_at (alter f i h) j = array_at h j.
Proof. intros Hij. unfold array_at. rewrite list_lookup_alter_ne by exact Hij. reflexivity. Qed.

Lemma onmessage_stale m now st :
  (U m <= lastUpdateId (orderbookRef st))%Z -> onmessage m now st = st.
Proof. intros H. unfold onmessage. rewrite (proj2 (Z.leb_le _ _) H). reflexivity. Qed.

(** The book after a message that passes the test of line 97. *)
Lemma onmessage_book m now st :
  refs_ok st -> (lastUpdateId (orderbookRef st) < U m)%Z ->
  book (onmessage m now st) =
  {| v_bids := update_bids now (b m) (v_bids (book st));
     v_asks := update_asks now (a m) (v_asks (book st));
     v_version := u m |}.
Proof.
  intros (Hne & Hb & Ha) H. unfold onmessage.
  rewrite (proj2 (Z.leb_gt _ _) H). unfold book, view. simpl. f_equal.
  - rewrite array_at_alter_ne by auto. apply array_at_alter_eq, Hb.
  - rewrite array_at_alter_eq by (rewrite length_alter; exact Ha).
    rewrite array_at_alter_ne by exact Hne. reflexivity.
Qed.

Lemma onmessage_history m now st :
  (lastUpdateId (orderbookRef st) < U m)%Z ->
  historicalData (onmessage m now st) = historicalData st /\
  pendingHistory (onmessage m now st) =
    pendingHistory st ++ [(now, orderbookRef (onmessage m now st))].
Proof.
  intros H. unfold onmessage. rewrite (proj2 (Z.leb_gt _ _) H). simpl. auto.
Qed.

Lemma onmessage_history_eq m now st :
  historicalData (onmessage m now st) = historicalData st.
Proof. unfold onmessage. destruct (U m <=? _)%Z; reflexivity. Qed.

Lemma onmessage_refs m now st :
  bids (orderbookRef (onmessage m now st)) = bids (orderbookRef st) /\
  asks (orderbookRef (onmessage m now st)) = asks (orderbookRef st).
Proof. unfold onmessage. destruct (U m <=? _)%Z; simpl; auto. Qed.

Lemma run_updater_snapshot h prev ts o :
  run_updater h prev (ts, o) = append_snapshot prev (snapshot_of ts (view h o)).
Proof.
  unfold run_updater, snapshot_of, view. simpl.
  rewrite !(slice_prefix 20). reflexivity.
Qed.

Lemma onmessage_refs_ok m now st : refs_ok st -> refs_ok (onmessage m now st).
Proof.
  intros Hok. unfold onmessage. destruct (U m <=? _)%Z; [exact Hok|].
  destruct Hok as (Hne & Hb & Ha). unfold refs_ok. simpl.
  rewrite !length_alter. auto.
Qed.

Lemma prices_to_levels now pairs : price <$> to_levels now pairs = fst <$> pairs.
Proof. unfold to_levels. rewrite <- list_fmap_compose. reflexivity. Qed.

Lemma load_snapshot_Some r now st st' :
  load_snapshot r now st = Some st' ->
  exists status data bs as_,
    r = Body status data /\ d_bids data = Some bs /\ d_asks data = Some as_ /\
    refs_ok st' /\
    book st' = {| v_bids := to_levels now bs; v_asks := to_levels now as_;
                  v_version := d_lastUpdateId data |} /\
    historicalData st' = [snapshot_of now (book st')] /\
    trace st' = trace st /\ error st' = error st /\
    wsRef st' = wsRef st /\ sockets st' = sockets st.
Proof.
  destruct r as [|status|status data]; simpl; try discriminate.
  destruct (d_bids data) as [bs|] eqn:Hb; simpl; [|discriminate].
  destruct (d_asks data) as [as_|] eqn:Ha; simpl; [|discriminate].
  intros [= <-]. exists status, data, bs, as_.
  assert (Hn : array_at (arrays st ++ [to_levels now bs; to_levels now as_])
                 (length (arrays st)) = to_levels now bs).
  { unfold array_at. rewrite lookup_app_r by lia. rewrite Nat.sub_diag. reflexivity. }
  assert (HSn : array_at (arrays st ++ [to_levels now bs; to_levels now as_])
                  (S (length (arrays st))) = to_levels now as_).
  { unfold array_at. rewrite lookup_app_r by lia.
    replace (S (length (arrays st)) - length (arrays st))%nat with 1%nat by lia.
    reflexivity. }
  unfold refs_ok, snapshot_of, book, view. simpl.
  rewrite !(slice_prefix 20), Hn, HSn, length_app. simpl.
  repeat split; auto; lia.
Qed.

(** Callbacks that leave the store, the live book and the history alone. *)
Lemma connectWebSocket_frame symbol st :
  arrays (connectWebSocket symbol st) = arrays st /\
  orderbookRef (connectWebSocket symbol st) = orderbookRef st /\
  orderbook (connectWebSocket symbol st) = orderbook st /\
  historicalData (connectWebSocket symbol st) = historicalData st /\
  error (connectWebSocket symbol st) = error st /\
  pendingHistory (connectWebSocket symbol st) = pendingHistory st.
Proof. unfold connectWebSocket. destruct (is_open st); repeat apply conj; auto. Qed.

Lemma initializeOrderbook_failed r now st :
  load_snapshot r now st = None ->
  initializeOrderbook r now st =
  {| arrays := arrays st; orderbook := orderbook st;
     historicalData := historicalData st;
     pendingHistory := pendingHistory st; connected := connected st;
     error := Some "Failed to initialize orderbook"%string;
     wsRef := wsRef st; orderbookRef := orderbookRef st;
     sockets := sockets st; trace := trace st ++ [ConsoleError] |}.
Proof. intros H. unfold initializeOrderbook. rewrite H. reflexivity. Qed.

Lemma book_frame st st' :
  arrays st' = arrays st -> orderbookRef st' = orderbookRef st -> book st' = book st.
Proof. unfold book. intros -> ->. reflexivity. Qed.

Lemma refs_ok_frame st st' :
  arrays st' = arrays st -> orderbookRef st' = orderbookRef st ->
  refs_ok st -> refs_ok st'.
Proof. unfold refs_ok. intros -> ->. auto. Qed.

(** An event other than a message or a loaded snapshot leaves store, live
    book and history as they are. *)
Lemma handle_frame symbol ev st :
  match ev with
  | WsMessage _ _ _ => False
  | Render => False
  | FetchSettled r now => load_snapshot r now st = None
  | _ => True
  end ->
  arrays (handle symbol ev st) = arrays st /\
  orderbookRef (handle symbol ev st) = orderbookRef st /\
  historicalData (handle symbol ev st) = historicalData st.
Proof.
  destruct ev; simpl; intros H; auto; try contradiction.
  - destruct (connectWebSocket_frame symbol (initializeOrderbook r now st))
      as (-> & -> & _ & -> & _).
    rewrite (initializeOrderbook_failed r now st H). auto.
  - destruct (connectWebSocket_frame symbol st) as (-> & -> & _ & -> & _). auto.
  - destruct (wsRef st) as [j|]; auto.
    unfold closing. destruct (sockets st !! j) as [[| | |]|]; auto.
Qed.

(** * The order invariant along a run *)

Lemma initial_ok : refs_ok initial /\ book_ordered initial.
Proof. unfold refs_ok, book_ordered. simpl. repeat split; auto; lia. Qed.

Lemma handle_book_frame symbol ev st :
  match ev with
  | WsMessage _ _ _ => False
  | FetchSettled r now => load_snapshot r now st = None
  | _ => True
  end ->
  book (handle symbol ev st) = book st.
Proof.
  intros H.
  assert (Hev : ev = Render \/ ev <> Render) by (destruct ev; auto; right; discriminate).
  destruct Hev as [->|Hev]; [reflexivity|].
  destruct (handle_frame symbol ev st) as (Ha & Hr & _).
  { destruct ev; auto. }
  apply book_frame; assumption.
Qed.

Ltac framed symbol st :=
  match goal with
  | |- context [handle symbol ?e st] =>
      let Ha := fresh "Ha" in
      let Hr := fresh "Hr" in
      let Hh := fresh "Hh" in
      destruct (handle_frame symbol e st I) as (Ha & Hr & Hh)
  end.

Lemma handle_ordered symbol ev st :
  event_ordered ev = true -> refs_ok st -> book_ordered st ->
  refs_ok (handle symbol ev st) /\ book_ordered (handle symbol ev st).
Proof.
  intros Hev Hok Hord.
  assert (Hframe : arrays (handle symbol ev st) = arrays st ->
                   orderbookRef (handle symbol ev st) = orderbookRef st ->
                   refs_ok (handle symbol ev st) /\ book_ordered (handle symbol ev st)).
  { intros Ha Hr. split; [eapply refs_ok_frame; eauto|].
    unfold book_ordered. rewrite (book_frame _ _ Ha Hr). exact Hord. }
  destruct ev as [|r now|i|i m now|i|i| | |];
    try (framed symbol st; apply Hframe; assumption).
  - (* a settled request *)
    destruct (load_snapshot r now st) as [st'|] eqn:Hload.
    + simpl. unfold initializeOrderbook. rewrite Hload.
      destruct (connectWebSocket_frame symbol st') as (Ha & Hr & _).
      apply load_snapshot_Some in Hload
        as (status & data & bs & as_ & -> & Hb & Has & Hok' & Hbook & _).
      split; [eapply refs_ok_frame; eauto|].
      unfold book_ordered. rewrite (book_frame _ _ Ha Hr), Hbook. simpl.
      simpl in Hev. rewrite Hb, Has in Hev. simpl in Hev.
      apply andb_true_iff in Hev as [H1 H2].
      unfold descending, ascending. rewrite !prices_to_levels. auto.
    + destruct (handle_frame symbol (FetchSettled r now) st Hload) as (Ha & Hr & _).
      apply Hframe; assumption.
  - (* a message *)
    simpl. split; [apply onmessage_refs_ok, Hok|].
    destruct (Z.le_gt_cases (U m) (lastUpdateId (orderbookRef st))) as [Hle|Hgt].
    + rewrite onmessage_stale by exact Hle. exact Hord.
    + unfold book_ordered. rewrite onmessage_book by (assumption || lia). simpl.
      destruct Hord as [Hb Ha].
      split; [apply (update_side_sorted Bid), Hb | apply (update_side_sorted Ask), Ha].
  - (* a render *)
    apply Hframe; reflexivity.
Qed.

Lemma run_ordered symbol evs st :
  forallb event_ordered evs = true -> refs_ok st -> book_ordered st ->
  refs_ok (run symbol evs st) /\ book_ordered (run symbol evs st).
Proof.
  revert st. induction evs as [|ev evs IH]; intros st Hevs Hok Hord; simpl.
  - auto.
  - simpl in Hevs. apply andb_true_iff in Hevs as [Hev Hevs].
    destruct (handle_ordered symbol ev st Hev Hok Hord) as [Hok' Hord'].
    apply IH; assumption.
Qed.

(** Every state of the hook keeps the two arrays of the live book apart. *)
Lemma run_refs_ok symbol evs st : refs_ok st -> refs_ok (run symbol evs st).
Proof.
  revert st. induction evs as [|ev evs IH]; intros st Hok; simpl; [exact Hok|].
  apply IH. destruct ev as [|r now|i|i m now|i|i| | |];
    try (framed symbol st; eapply refs_ok_frame; eassumption).
  - destruct (load_snapshot r now st) as [st'|] eqn:Hload.
    + simpl. unfold initializeOrderbook. rewrite Hload.
      destruct (connectWebSocket_frame symbol st') as (Ha & Hr & _).
      apply load_snapshot_Some in Hload as (? & ? & ? & ? & _ & _ & _ & Hok' & _).
      eapply refs_ok_frame; eauto.
    + destruct (handle_frame symbol (FetchSettled r now) st Hload) as (Ha & Hr & _).
      eapply refs_ok_frame; eassumption.
  - simpl. apply onmessage_refs_ok, Hok.
  - exact Hok.
Qed.

Lemma same_book_ordered ev : same_book ev = true -> event_ordered ev = true.
Proof. destruct ev; simpl; auto. discriminate. Qed.

Lemma handle_version symbol ev st :
  same_book ev = true ->
  (v_version (book st) <= v_version (book (handle symbol ev st)))%Z.
Proof.
  intros Hev.
  destruct ev as [|r now|i|i m now|i|i| | |]; try discriminate;
    try (rewrite handle_book_frame by exact I; lia).
  simpl in Hev. apply Z.leb_le in Hev. simpl.
  destruct (Z.le_gt_cases (U m) (lastUpdateId (orderbookRef st))) as [Hle|Hgt].
  - rewrite onmessage_stale by exact Hle. lia.
  - unfold onmessage. rewrite (proj2 (Z.leb_gt _ _)) by lia. simpl. lia.
Qed.

Lemma run_version symbol evs st :
  forallb same_book evs = true ->
  (v_version (book st) <= v_version (book (run symbol evs st)))%Z.
Proof.
  revert st. induction evs as [|ev evs IH]; intros st Hevs; [simpl; lia|].
  simpl in Hevs. apply andb_true_iff in Hevs as [Hev Hevs].
  change (run symbol (ev :: evs) st) with (run symbol evs (handle symbol ev st)).
  pose proof (handle_version symbol ev st Hev). pose proof (IH (handle symbol ev st) Hevs).
  lia.
Qed.

(** C3.  Let the hook run from its start through any events in which every
    loaded snapshot has descending bids and ascending asks, and then through
    any further events of the same book (no reload; update ids of a message
    form a range).  After each of them the bids of the live book are strictly
    descending, the asks strictly ascending, no side holds a price twice,
    and the book's version has not decreased. *)
Theorem order_invariant (symbol : string) (evs evs' : list Event) :
  forallb event_ordered evs = true ->
  forallb same_book evs' = true ->
  let st := run symbol evs initial in
  let st' := run symbol evs' st in
  descending (v_bids (book st')) = true /\
  ascending (v_asks (book st')) = true /\
  no_duplicate_prices (v_bids (book st')) /\
  no_duplicate_prices (v_asks (book st')) /\
  (v_version (book st) <= v_version (book st'))%Z.
Proof.
  intros Hevs Hevs' st st'.
  destruct initial_ok as [Hok0 Hord0].
  destruct (run_ordered symbol evs initial Hevs Hok0 Hord0) as [Hok Hord].
  assert (Hevs'' : forallb event_ordered evs' = true).
  { apply forallb_forall. intros ev Hin. apply same_book_ordered.
    rewrite forallb_forall in Hevs'. apply Hevs', Hin. }
  destruct (run_ordered symbol evs' st Hevs'' Hok Hord) as [_ [Hb Ha]].
  repeat split.
  - exact Hb.
  - exact Ha.
  - apply (sorted_no_duplicate_prices Bid), Hb.
  - apply (sorted_no_duplicate_prices Ask), Ha.
  - apply run_version, Hevs'.
Qed.

Lemma order_invariant_witness :
  let st := run "BTCUSDT" [Mount; FetchSettled snapshot_A 1000; WsOpen 0] initial in
  let st' := run "BTCUSDT" [WsMessage 0 diff_A 2000; WsClose 0; TimerFires] st in
  descending (v_bids (book st')) = true /\
  ascending (v_asks (book st')) = true /\
  no_duplicate_prices (v_bids (book st')) /\
  no_duplicate_prices (v_asks (book st')) /\
  (v_version (book st) <= v_version (book st'))%Z.
Proof.
  apply (order_invariant "BTCUSDT" [Mount; FetchSettled snapshot_A 1000; WsOpen 0]
           [WsMessage 0 diff_A 2000; WsClose 0; TimerFires]); reflexivity.
Defined.

(** * Stale messages and the scenarios *)

(** C4.  A message whose final update id is not above the version of the
    book, with first id <= final id, leaves the whole state of the hook as
    it was: bids, asks, version, history, error and trace. *)
Theorem stale_diff_identity (symbol : string) (i : nat) (st : HookState)
    (m : DepthUpdate) (now : Z) :
  (u m <= v_version (book st))%Z -> (U m <= u m)%Z ->
  handle symbol (WsMessage i m now) st = st.
Proof.
  intros Hu HU. simpl. apply onmessage_stale.
  unfold book, view in Hu. simpl in Hu. lia.
Qed.

Lemma stale_diff_identity_witness :
  handle "BTCUSDT" (WsMessage 0 diff_duplicate 2000) live_v10 = live_v10.
Proof.
  apply (stale_diff_identity "BTCUSDT" 0 live_v10 diff_duplicate 2000);
    vm_compute; discriminate.
Defined.

(** C6.  Scenario A: from the snapshot bids [(100,2)], asks [(101,3)],
    version 5, the diff with ids 6..6 and bid delta (100,0) gives the book
    with no bids, asks [(101,3)] and version 6. *)
Theorem scenario_A (now0 now1 : Z) :
  let st := initializeOrderbook snapshot_A now0 initial in
  book st = {| v_bids := [level 100 2 now0]; v_asks := [level 101 3 now0];
               v_version := 5 |} /\
  book (onmessage diff_A now1 st) =
    {| v_bids := []; v_asks := [level 101 3 now0]; v_version := 6 |}.
Proof. split; reflexivity. Qed.

(** Scenario D: (99.5, 4) and then (100.5, 1) on an empty bid side. *)
Example scenario_D (now : Z) :
  update_bids now (Some [(99.5, 4)%Q; (100.5, 1)%Q]) [] =
  [level 100.5 1 now; level 99.5 4 now].
Proof. reflexivity. Qed.

(** * The history *)

Lemma append_snapshot_drop prev x :
  append_snapshot prev x = drop (length prev + 1 - 60) (prev ++ [x]).
Proof.
  unfold append_snapshot, push. rewrite (slice_suffix 60) by lia.
  rewrite length_app. reflexivity.
Qed.

Lemma foldl_append_snapshot xs x prev :
  foldl append_snapshot (append_snapshot prev x) xs =
  drop (length prev + 1 + length xs - 60) (prev ++ x :: xs).
Proof.
  revert x prev. induction xs as [|y xs IH]; intros x prev.
  - simpl. rewrite append_snapshot_drop. f_equal. lia.
  - change (foldl append_snapshot (append_snapshot prev x) (y :: xs))
      with (foldl append_snapshot (append_snapshot (append_snapshot prev x) y) xs).
    rewrite IH, (append_snapshot_drop prev x).
    rewrite <- drop_app_le by (rewrite length_app; simpl; lia).
    rewrite drop_drop, <- app_assoc. simpl.
    rewrite length_drop, length_app. simpl. f_equal. lia.
Qed.

(** C7.  After more than 60 appends the history holds exactly 60 snapshots:
    the 60 appended last, in the order of their appending, the oldest first.
    An append to a history of 60 drops the first one only and puts the new
    one last; below 60 nothing is dropped. *)
Theorem history_bound (prev xs : list HistoricalData) :
  (60 < length xs)%nat ->
  let h := foldl append_snapshot prev xs in
  length h = 60%nat /\
  h = drop (length xs - 60) xs /\
  (forall x, append_snapshot h x = drop 1 h ++ [x]) /\
  (forall h' x, (length h' < 60)%nat -> append_snapshot h' x = h' ++ [x]).
Proof.
  intros Hlen h.
  assert (Hh : h = drop (length xs - 60) xs).
  { subst h. destruct xs as [|x xs]; [simpl in Hlen; lia|].
    simpl. rewrite foldl_append_snapshot. simpl in Hlen.
    rewrite drop_app_ge by lia. f_equal. simpl. lia. }
  assert (Hl : length h = 60%nat) by (rewrite Hh, length_drop; lia).
  repeat split; auto.
  - intros x. rewrite append_snapshot_drop, Hl. simpl.
    rewrite drop_app_le by lia. reflexivity.
  - intros h' x Hh'. rewrite append_snapshot_drop.
    replace (length h' + 1 - 60)%nat with 0%nat by lia. reflexivity.
Qed.

Lemma history_bound_witness :
  let xs := replicate 61 (snapshot_of 0 (book initial)) in
  let h := foldl append_snapshot [] xs in
  length h = 60%nat /\
  h = drop (length xs - 60) xs /\
  (forall x, append_snapshot h x = drop 1 h ++ [x]) /\
  (forall h' x, (length h' < 60)%nat -> append_snapshot h' x = h' ++ [x]).
Proof.
  apply (history_bound [] (replicate 61 (snapshot_of 0 (book initial)))).
  vm_compute. lia.
Defined.

Lemma snapshot_of_top20 now v : top20 (snapshot_of now v).
Proof. unfold top20, snapshot_of. simpl. rewrite !length_take. lia. Qed.

Lemma append_snapshot_top20 prev x :
  Forall top20 prev -> top20 x -> Forall top20 (append_snapshot prev x).
Proof.
  intros Hprev Hx. rewrite append_snapshot_drop.
  apply Forall_drop, Forall_app. split; [exact Hprev|]. constructor; [exact Hx|constructor].
Qed.


Lemma load_snapshot_failed r now st :
  load_snapshot r now st = None <-> fetch_failed r = true.
Proof.
  destruct r as [|status|status data]; simpl; try tauto.
  destruct (d_bids data), (d_asks data); simpl; split; intros H;
    try discriminate; reflexivity.
Qed.

Lemma handle_loaded symbol r now st :
  fetch_failed r = false ->
  historicalData (handle symbol (FetchSettled r now) st) =
  [snapshot_of now (book (handle symbol (FetchSettled r now) st))].
Proof.
  intros Hr. simpl.
  destruct (load_snapshot r now st) as [st'|] eqn:Hload.
  - unfold initializeOrderbook. rewrite Hload.
    destruct (connectWebSocket_frame symbol st') as (Ha & Href & _ & -> & _).
    rewrite (book_frame _ _ Ha Href).
    apply load_snapshot_Some in Hload as (? & ? & ? & ? & _ & _ & _ & _ & _ & Hh & _).
    exact Hh.
  - apply load_snapshot_failed in Hload. congruence.
Qed.

Lemma load_snapshot_pending r now st st' :
  load_snapshot r now st = Some st' -> pendingHistory st' = [].
Proof.
  destruct r as [|status|status data]; simpl; try discriminate.
  destruct (d_bids data); simpl; [|discriminate].
  destruct (d_asks data); simpl; [|discriminate].
  intros [= <-]. reflexivity.
Qed.

Lemma handle_frame_pending symbol ev st :
  match ev with
  | WsMessage _ _ _ => False
  | Render => False
  | FetchSettled r now => load_snapshot r now st = None
  | _ => True
  end ->
  pendingHistory (handle symbol ev st) = pendingHistory st.
Proof.
  destruct ev; simpl; intros H; auto; try contradiction.
  - destruct (connectWebSocket_frame symbol (initializeOrderbook r now st))
      as (_ & _ & _ & _ & _ & ->).
    rewrite (initializeOrderbook_failed r now st H). reflexivity.
  - destruct (connectWebSocket_frame symbol st) as (_ & _ & _ & _ & _ & ->).
    reflexivity.
  - destruct (wsRef st) as [j|]; auto.
    unfold closing. destruct (sockets st !! j) as [[| | |]|]; auto.
Qed.

Lemma handle_loaded_pending symbol r now st :
  fetch_failed r = false ->
  pendingHistory (handle symbol (FetchSettled r now) st) = [].
Proof.
  intros Hr. simpl.
  destruct (load_snapshot r now st) as [st'|] eqn:Hload.
  - unfold initializeOrderbook. rewrite Hload.
    destruct (connectWebSocket_frame symbol st') as (_ & _ & _ & _ & _ & ->).
    eapply load_snapshot_pending, Hload.
  - apply load_snapshot_failed in Hload. congruence.
Qed.

Lemma render_top20 h pend : forall prev,
  Forall top20 prev -> Forall top20 (foldl (run_updater h) prev pend).
Proof.
  induction pend as [|[ts o] pend IH]; intros prev Hprev; simpl; [exact Hprev|].
  apply IH. rewrite run_updater_snapshot.
  apply append_snapshot_top20; [exact Hprev|apply snapshot_of_top20].
Qed.

Lemma handle_top20 symbol ev st :
  Forall top20 (historicalData st) ->
  Forall top20 (historicalData (handle symbol ev st)).
Proof.
  intros Hst.
  destruct ev as [|r now|i|i m now|i|i| | |];
    try (framed symbol st;
         match goal with H : historicalData _ = historicalData st |- _ => rewrite H end;
         exact Hst).
  - destruct (fetch_failed r) eqn:Hr.
    + apply (load_snapshot_failed r now st) in Hr.
      destruct (handle_frame symbol (FetchSettled r now) st Hr) as (_ & _ & ->).
      exact Hst.
    + rewrite handle_loaded by exact Hr.
      constructor; [apply snapshot_of_top20|constructor].
  - simpl. rewrite onmessage_history_eq. exact Hst.
  - simpl. apply render_top20, Hst.
Qed.

Lemma run_top20 symbol evs st :
  Forall top20 (historicalData st) ->
  Forall top20 (historicalData (run symbol evs st)).
Proof.
  revert st. induction evs as [|ev evs IH]; intros st Hst; simpl; [exact Hst|].
  apply IH, handle_top20, Hst.
Qed.

(** The updaters that wait read the live book. *)
Lemma handle_pending_live symbol ev st :
  pending_live st -> pending_live (handle symbol ev st).
Proof.
  intros Hst.
  destruct ev as [|r now|i|i m now|i|i| | |];
    try (framed symbol st; unfold pending_live;
         rewrite handle_frame_pending by exact I;
         match goal with H : orderbookRef _ = orderbookRef st |- _ => rewrite H end;
         exact Hst).
  - destruct (fetch_failed r) eqn:Hr.
    + apply (load_snapshot_failed r now st) in Hr.
      destruct (handle_frame symbol (FetchSettled r now) st Hr) as (_ & Href & _).
      unfold pending_live.
      rewrite (handle_frame_pending symbol (FetchSettled r now) st Hr), Href.
      exact Hst.
    + unfold pending_live. rewrite handle_loaded_pending by exact Hr. constructor.
  - simpl. destruct (Z.le_gt_cases (U m) (lastUpdateId (orderbookRef st))) as [Hle|Hgt].
    + rewrite onmessage_stale by exact Hle. exact Hst.
    + destruct (onmessage_history m now st) as [_ Hp]; [lia|].
      destruct (onmessage_refs m now st) as [Hb Ha].
      unfold pending_live. rewrite Hp, Hb, Ha.
      apply Forall_app. split; [exact Hst|].
      constructor; [|constructor]. simpl. auto.
  - constructor.
Qed.

Lemma run_pending_live symbol evs st :
  pending_live st -> pending_live (run symbol evs st).
Proof.
  revert st. induction evs as [|ev evs IH]; intros st Hst; simpl; [exact Hst|].
  apply IH, handle_pending_live, Hst.
Qed.

(** What a render makes of the history when the updaters read the live
    book. *)
Lemma render_live st :
  pending_live st ->
  historicalData (render st) =
  render_of (book st) (historicalData st) (fst <$> pendingHistory st).
Proof.
  unfold pending_live, render, render_of. simpl.
  generalize (historicalData st). induction (pendingHistory st) as [|[ts o] pend IH];
    intros prev Hp; [reflexivity|].
  apply Forall_cons in Hp as [[Hb Ha] Hp]. simpl in Hb, Ha. csimpl.
  rewrite <- IH by exact Hp. f_equal.
  rewrite run_updater_snapshot. unfold snapshot_of, book, view. simpl.
  rewrite Hb, Ha. reflexivity.
Qed.

Lemma take_sorted s n l : side_sorted s l = true -> side_sorted s (take n l) = true.
Proof.
  rewrite !side_sorted_spec. intros H. rewrite <- (take_drop n l) in H.
  eapply StronglySorted_app_1_l. exact H.
Qed.

Lemma snapshot_of_ordered ts st : book_ordered st -> entry_ordered (snapshot_of ts (book st)).
Proof.
  intros [Hb Ha]. split; simpl.
  - apply (take_sorted Bid), Hb.
  - apply (take_sorted Ask), Ha.
Qed.

Lemma render_of_ordered v (P : HistoricalData -> Prop) ts : forall prev,
  (forall t, P (snapshot_of t v)) -> Forall P prev -> Forall P (render_of v prev ts).
Proof.
  unfold render_of. induction ts as [|t ts IH]; intros prev Hv Hprev; simpl; [exact Hprev|].
  apply IH; [exact Hv|]. rewrite append_snapshot_drop.
  apply Forall_drop, Forall_app. split; [exact Hprev|]. constructor; [apply Hv|constructor].
Qed.

Lemma handle_entries_ordered symbol ev st :
  event_ordered ev = true -> refs_ok st -> book_ordered st -> pending_live st ->
  Forall entry_ordered (historicalData st) ->
  Forall entry_ordered (historicalData (handle symbol ev st)).
Proof.
  intros Hev Hok Hord Hlive Hst.
  destruct ev as [|r now|i|i m now|i|i| | |];
    try (framed symbol st;
         match goal with H : historicalData _ = historicalData st |- _ => rewrite H end;
         exact Hst).
  - destruct (fetch_failed r) eqn:Hr.
    + apply (load_snapshot_failed r now st) in Hr.
      destruct (handle_frame symbol (FetchSettled r now) st Hr) as (_ & _ & ->).
      exact Hst.
    + rewrite handle_loaded by exact Hr.
      constructor; [|constructor]. apply snapshot_of_ordered.
      apply (handle_ordered symbol (FetchSettled r now) st Hev Hok Hord).
  - simpl. rewrite onmessage_history_eq. exact Hst.
  - change (handle symbol Render st) with (render st).
    rewrite render_live by exact Hlive.
    apply render_of_ordered; [|exact Hst].
    intros t. apply snapshot_of_ordered, Hord.
Qed.

Lemma run_entries_ordered symbol evs : forall st,
  forallb event_ordered evs = true -> refs_ok st -> book_ordered st ->
  pending_live st -> Forall entry_ordered (historicalData st) ->
  Forall entry_ordered (historicalData (run symbol evs st)).
Proof.
  induction evs as [|ev evs IH]; intros st Hevs Hok Hord Hlive Hst; simpl; [exact Hst|].
  simpl in Hevs. apply andb_true_iff in Hevs as [Hev Hevs].
  destruct (handle_ordered symbol ev st Hev Hok Hord) as [Hok' Hord'].
  apply IH; auto.
  - apply handle_pending_live, Hlive.
  - apply handle_entries_ordered; assumption.
Qed.

(** C10.  In every state of the hook each entry of the history holds at
    most 20 bids and at most 20 asks, and when every loaded snapshot is in
    order each entry, like the live book, has its bids in descending and its
    asks in ascending order of price.  The entry that seeds the history when a snapshot is
    loaded holds the first 20 levels of each side of the book just loaded.
    A message that is applied appends nothing at once: its updater waits,
    with the clock reading of the message.  At the render each updater that
    waits appends an entry with its own timestamp and the first 20 levels of
    each side of the live book as it is at that render, in the order of the
    side; the live book may hold more. *)
Theorem history_top_levels (symbol : string) (evs : list Event) :
  let st := run symbol evs initial in
  Forall top20 (historicalData st) /\
  (forallb event_ordered evs = true ->
     Forall entry_ordered (historicalData st) /\
     descending (v_bids (book st)) = true /\ ascending (v_asks (book st)) = true) /\
  (forall r now, fetch_failed r = false ->
     let st' := handle symbol (FetchSettled r now) st in
     historicalData st' = [snapshot_of now (book st')]) /\
  (forall i m now, (v_version (book st) < U m)%Z ->
     let st' := handle symbol (WsMessage i m now) st in
     historicalData st' = historicalData st /\
     pendingHistory st' = pendingHistory st ++ [(now, orderbookRef st')]) /\
  historicalData (handle symbol Render st) =
    render_of (book st) (historicalData st) (fst <$> pendingHistory st).
Proof.
  intros st. split; [|split; [|split; [|split]]].
  - apply run_top20. constructor.
  - intros Hevs. destruct initial_ok as [Hok0 Hord0]. split.
    + apply run_entries_ordered; auto; constructor.
    + apply (run_ordered symbol evs initial Hevs Hok0 Hord0).
  - intros r now Hr. apply handle_loaded, Hr.
  - intros i m now Hm st'. apply onmessage_history, Hm.
  - apply render_live, run_pending_live. constructor.
Qed.

(** Two messages before one render: both entries of the render hold the
    levels the second message left, each with the timestamp of its own
    message, in the order of the book. *)
Example two_messages_one_render :
  historicalData
    (run "BTCUSDT" [Mount; FetchSettled snapshot_A 1000; WsOpen 0;
                    WsMessage 0 diff_B 2000; WsMessage 0 diff_C 3000; Render] initial) =
  [ {| h_timestamp := 1000; h_bids := [level 100 2 1000];
       h_asks := [level 101 3 1000] |};
    {| h_timestamp := 2000; h_bids := [level 100.5 4 3000; level 100 2 1000];
       h_asks := [level 101 3 1000; level 102 1 3000] |};
    {| h_timestamp := 3000; h_bids := [level 100.5 4 3000; level 100 2 1000];
       h_asks := [level 101 3 1000; level 102 1 3000] |} ].
Proof. reflexivity. Qed.

(** * Admission of a message *)

Lemma onmessage_trace m now st :
  trace (onmessage m now st) = trace st /\
  sockets (onmessage m now st) = sockets st /\
  wsRef (onmessage m now st) = wsRef st /\
  error (onmessage m now st) = error st /\
  connected (onmessage m now st) = connected st.
Proof. unfold onmessage. destruct (U m <=? _)%Z; simpl; auto. Qed.




(** * Disconnection *)

Lemma closed_not_open symbol i st :
  wsRef st = Some i -> is_open (handle symbol (WsClose i) st) = false.
Proof.
  intros Hws. unfold is_open. simpl. rewrite Hws.
  destruct (decide (i < length (sockets st))%nat) as [Hi|Hi].
  - rewrite list_lookup_insert_eq by exact Hi. reflexivity.
  - rewrite list_insert_ge, lookup_ge_None_2 by lia. reflexivity.
Qed.

Lemma reconnect_cycle_step symbol i st :
  wsRef st = Some i ->
  trace (reconnect_cycle symbol st) =
    trace st ++ [SetTimeout CbConnectWebSocket 3000; NewWebSocket symbol] /\
  wsRef (reconnect_cycle symbol st) = Some (length (sockets st)) /\
  book (reconnect_cycle symbol st) = book st /\
  orderbook (reconnect_cycle symbol st) = orderbook st /\
  historicalData (reconnect_cycle symbol st) = historicalData st.
Proof.
  intros Hws. unfold reconnect_cycle. rewrite Hws.
  pose proof (closed_not_open symbol i st Hws) as Hclosed.
  change (handle symbol TimerFires (handle symbol (WsClose i) st))
    with (connectWebSocket symbol (handle symbol (WsClose i) st)).
  unfold connectWebSocket. rewrite Hclosed. simpl.
  rewrite <- app_assoc, length_insert. auto.
Qed.

Lemma reconnect_cycles symbol n : forall st i,
  wsRef st = Some i ->
  trace (Nat.iter n (reconnect_cycle symbol) st) =
    trace st ++ concat (replicate n [SetTimeout CbConnectWebSocket 3000;
                                     NewWebSocket symbol]) /\
  book (Nat.iter n (reconnect_cycle symbol) st) = book st /\
  orderbook (Nat.iter n (reconnect_cycle symbol) st) = orderbook st /\
  historicalData (Nat.iter n (reconnect_cycle symbol) st) = historicalData st.
Proof.
  induction n as [|n IH]; intros st i Hws.
  - simpl. rewrite app_nil_r. auto.
  - rewrite Nat.iter_succ_r.
    destruct (reconnect_cycle_step symbol i st Hws) as (Ht & Hw & Hb & Ho & Hh).
    destruct (IH _ _ Hw) as (Ht' & Hb' & Ho' & Hh').
    rewrite Ht', Hb', Ho', Hh', Ht, Hb, Ho, Hh.
    simpl. rewrite <- app_assoc. auto.
Qed.

(** C2, as the code has it.  When the socket held by [wsRef] closes,
    [connected] becomes false and one timer of 3000 ms is set for
    [connectWebSocket]; the store, the live book, the displayed book and
    the history are left as they are and no snapshot is requested.  When the
    timer fires a new socket is opened.  The same happens at every further
    close, with the same delay, however many closes came before. *)
Theorem disconnect_reconnects (symbol : string) (st : HookState) (i n : nat) :
  wsRef st = Some i ->
  let st1 := handle symbol (WsClose i) st in
  (connected st1 = false /\
   trace st1 = trace st ++ [SetTimeout CbConnectWebSocket 3000] /\
   arrays st1 = arrays st /\ book st1 = book st /\
   orderbook st1 = orderbook st /\ historicalData st1 = historicalData st) /\
  trace (handle symbol TimerFires st1) =
    trace st ++ [SetTimeout CbConnectWebSocket 3000; NewWebSocket symbol] /\
  let stn := Nat.iter n (reconnect_cycle symbol) st in
  trace stn = trace st ++ concat (replicate n [SetTimeout CbConnectWebSocket 3000;
                                               NewWebSocket symbol]) /\
  book stn = book st /\ orderbook stn = orderbook st /\
  historicalData stn = historicalData st.
Proof.
  intros Hws st1. split; [|split].
  - subst st1. simpl. repeat apply conj; reflexivity.
  - destruct (reconnect_cycle_step symbol i st Hws) as (Ht & _).
    unfold reconnect_cycle in Ht. rewrite Hws in Ht. exact Ht.
  - apply (reconnect_cycles symbol n st i Hws).
Qed.

Lemma disconnect_reconnects_witness :
  let st1 := handle "BTCUSDT" (WsClose 0) live_v10 in
  (connected st1 = false /\
   trace st1 = trace live_v10 ++ [SetTimeout CbConnectWebSocket 3000] /\
   arrays st1 = arrays live_v10 /\ book st1 = book live_v10 /\
   orderbook st1 = orderbook live_v10 /\
   historicalData st1 = historicalData live_v10) /\
  trace (handle "BTCUSDT" TimerFires st1) =
    trace live_v10 ++ [SetTimeout CbConnectWebSocket 3000; NewWebSocket "BTCUSDT"] /\
  let stn := Nat.iter 3 (reconnect_cycle "BTCUSDT") live_v10 in
  trace stn = trace live_v10 ++
    concat (replicate 3 [SetTimeout CbConnectWebSocket 3000; NewWebSocket "BTCUSDT"]) /\
  book stn = book live_v10 /\ orderbook stn = orderbook live_v10 /\
  historicalData stn = historicalData live_v10.
Proof.
  apply (disconnect_reconnects "BTCUSDT" live_v10 0 3). reflexivity.
Defined.

(** The claim of the specification on the code: the socket of a live book
    at version 10 closes and the timer fires.  The book still holds its
    levels and its version, the history its entry, and the only snapshot
    request in the trace is the one made at mount. *)
Lemma disconnect_keeps_book :
  let st' := handle "BTCUSDT" TimerFires (handle "BTCUSDT" (WsClose 0) live_v10) in
  book st' = {| v_bids := [level 100 2 1000]; v_asks := [level 101 3 1000];
                v_version := 10 |} /\
  historicalData st' = [snapshot_of 1000 (book live_v10)] /\
  trace st' = [Fetch "BTCUSDT"; NewWebSocket "BTCUSDT";
               SetTimeout CbConnectWebSocket 3000; NewWebSocket "BTCUSDT"].
Proof. repeat apply conj; reflexivity. Qed.

(** * A snapshot request that fails *)

Lemma status_not_inspected s1 s2 data now st :
  load_snapshot (Body s1 data) now st = load_snapshot (Body s2 data) now st.
Proof. reflexivity. Qed.

(** C8, as the code has it.  When the request rejects, the body is not
    JSON, or [bids] or [asks] is missing from it, [error] is set to the
    message of the [catch] and the exception is logged; store, live book,
    displayed book and history are left as they were, so nothing of the
    answer is taken over.  The hook has no state that holds messages back:
    the socket is opened all the same (unless one is open), and a message
    whose first id is above the version of the unchanged book moves the
    book to the final id of the message. *)
Theorem snapshot_failure (symbol : string) (st : HookState) (r : FetchResult)
    (now : Z) :
  fetch_failed r = true ->
  let st' := handle symbol (FetchSettled r now) st in
  error st' = Some "Failed to initialize orderbook"%string /\
  arrays st' = arrays st /\ book st' = book st /\
  orderbook st' = orderbook st /\ historicalData st' = historicalData st /\
  trace st' = trace st ++ ConsoleError ::
                (if is_open st then [] else [NewWebSocket symbol]) /\
  forall i m now', (v_version (book st) < U m)%Z ->
    v_version (book (handle symbol (WsMessage i m now') st')) = u m.
Proof.
  intros Hr st'. apply (load_snapshot_failed r now st) in Hr.
  assert (Hst' : st' = connectWebSocket symbol (initializeOrderbook r now st))
    by reflexivity.
  rewrite (initializeOrderbook_failed r now st Hr) in Hst'.
  assert (Hbook : book st' = book st).
  { apply (handle_book_frame symbol (FetchSettled r now) st). exact Hr. }
  assert (Hfields : error st' = Some "Failed to initialize orderbook"%string /\
                    arrays st' = arrays st /\ orderbook st' = orderbook st /\
                    historicalData st' = historicalData st /\
                    trace st' = trace st ++ ConsoleError ::
                      (if is_open st then [] else [NewWebSocket symbol])).
  { rewrite Hst'. unfold connectWebSocket, is_open. simpl.
    destruct (wsRef st) as [j|]; [destruct (sockets st !! j) as [[| | |]|]|];
      simpl; rewrite <- ?app_assoc; auto. }
  destruct Hfields as (He & Ha & Ho & Hh & Ht).
  repeat apply conj; try assumption.
  intros i m now' Hm. simpl. unfold onmessage.
  assert (Hv : lastUpdateId (orderbookRef st') = v_version (book st)).
  { rewrite <- Hbook. reflexivity. }
  fold st'. rewrite Hv, (proj2 (Z.leb_gt _ _) Hm). reflexivity.
Qed.

Lemma snapshot_failure_witness :
  let st' := handle "BTCUSDT" (FetchSettled NetworkError 1000) initial in
  error st' = Some "Failed to initialize orderbook"%string /\
  arrays st' = arrays initial /\ book st' = book initial /\
  orderbook st' = orderbook initial /\ historicalData st' = historicalData initial /\
  trace st' = trace initial ++ ConsoleError ::
                (if is_open initial then [] else [NewWebSocket "BTCUSDT"]) /\
  forall i m now', (v_version (book initial) < U m)%Z ->
    v_version (book (handle "BTCUSDT" (WsMessage i m now') st')) = u m.
Proof.
  apply (snapshot_failure "BTCUSDT" initial NetworkError 1000). reflexivity.
Defined.

(** The claim of the specification on the code: the first request fails,
    the socket opens and one message arrives.  The failure was reported and
    the book was left empty at version 0, yet the message is applied to
    that book, and [onopen] has cleared the error. *)
Lemma diff_applied_without_snapshot :
  let st := run "BTCUSDT" [Mount; FetchSettled NetworkError 1000] initial in
  let st' := run "BTCUSDT" [WsOpen 0; WsMessage 0 diff_first 2000] st in
  error st = Some "Failed to initialize orderbook"%string /\
  book st = {| v_bids := []; v_asks := []; v_version := 0 |} /\
  trace st = [Fetch "BTCUSDT"; ConsoleError; NewWebSocket "BTCUSDT"] /\
  book st' = {| v_bids := [level 100 7 2000]; v_asks := []; v_version := 1 |} /\
  error st' = None.
Proof. repeat apply conj; reflexivity. Qed.

(** * The object handed to the consumer *)

(** After a message that is applied, the object given to [setOrderbook] is
    the object kept in [orderbookRef], and its arrays are the arrays the
    live book had before the message. *)
Lemma displayed_book_is_live_book m now st :
  (lastUpdateId (orderbookRef st) < U m)%Z ->
  orderbook (onmessage m now st) = orderbookRef (onmessage m now st) /\
  bids (orderbookRef (onmessage m now st)) = bids (orderbookRef st) /\
  asks (orderbookRef (onmessage m now st)) = asks (orderbookRef st).
Proof.
  intros H. unfold onmessage. rewrite (proj2 (Z.leb_gt _ _) H). simpl. auto.
Qed.

(** C9 on the code.  The object the hook returns as [orderbook] after the
    snapshot of scenario A shares its two arrays with the live book.  The
    next message splices the bid array in place, so the object handed out
    before, still labelled version 5, has lost its bid: the consumer holding
    it sees a book that the feed never described. *)
Lemma handed_out_book_mutated :
  let st1 := run "BTCUSDT" [Mount; FetchSettled snapshot_A 1000; WsOpen 0] initial in
  let handed_out := orderbook st1 in
  let st2 := handle "BTCUSDT" (WsMessage 0 diff_A 2000) st1 in
  view (arrays st1) handed_out =
    {| v_bids := [level 100 2 1000]; v_asks := [level 101 3 1000]; v_version := 5 |} /\
  view (arrays st2) handed_out =
    {| v_bids := []; v_asks := [level 101 3 1000]; v_version := 5 |} /\
  view (arrays st2) (orderbook st2) =
    {| v_bids := []; v_asks := [level 101 3 1000]; v_version := 6 |}.
Proof. repeat apply conj; reflexivity. Qed.

(** * How deltas compose on a side *)

Section MoreArrayFacts.
Context {A : Type}.
Implicit Types l : list A.

Lemma findIndex_Some_lookup (p : A -> bool) l i :
  findIndex p l = Some i -> exists x, l !! i = Some x /\ p x = true.
Proof.
  revert i. induction l as [|z l IH]; intros i; simpl; [discriminate|].
  destruct (p z) eqn:Hz.
  - intros [= <-]. exists z. auto.
  - destruct (findIndex p l) as [j|]; simpl; [|discriminate].
    intros [= <-]. apply (IH j eq_refl).
Qed.

Lemma findIndex_is_Some (p : A -> bool) l x :
  x ∈ l -> p x = true -> exists i, findIndex p l = Some i.
Proof.
  intros Hx Hp. destruct (findIndex p l) as [i|] eqn:Hi; [eauto|].
  apply findIndex_None in Hi. rewrite Forall_forall in Hi.
  rewrite (Hi x Hx) in Hp. discriminate.
Qed.

Lemma length_sort_insert (cmp : A -> A -> Q) x l :
  length (sort_insert cmp x l) = S (length l).
Proof.
  induction l as [|y l IH]; simpl; [reflexivity|].
  destruct (Qle_bool (cmp y x) 0); simpl; [rewrite IH|]; reflexivity.
Qed.

Lemma length_sort (cmp : A -> A -> Q) l : length (sort cmp l) = length l.
Proof.
  induction l as [|x l IH] using rev_ind; [reflexivity|].
  rewrite sort_snoc, length_sort_insert, IH, length_app. simpl. lia.
Qed.
End MoreArrayFacts.

Section SideAlgebra.
Variable cmp : OrderbookLevel -> OrderbookLevel -> Q.
Hypothesis cmp_flip : forall x y, (cmp y x == - cmp x y)%Q.
Hypothesis cmp_trans : forall x y z, (cmp x y < 0)%Q -> (cmp y z < 0)%Q -> (cmp x z < 0)%Q.
Hypothesis cmp_price : forall x x' y y',
  (price x == price x')%Q -> (price y == price y')%Q -> (cmp x y == cmp x' y')%Q.
Hypothesis cmp_zero : forall x y, (cmp x y == 0)%Q <-> (price x == price y)%Q.

Local Abbreviation in_order := (in_order cmp).

Lemma in_order_irrefl x : ~ in_order x x.
Proof.
  intros H. apply (in_order_price cmp cmp_zero x x H). reflexivity.
Qed.

Lemma in_order_asym x y : in_order x y -> ~ in_order y x.
Proof. unfold in_order. intros H1 H2. pose proof (cmp_flip x y). lra. Qed.

(** Two sides in order that hold the same levels are the same array. *)
Lemma in_order_ext l1 : forall l2,
  StronglySorted in_order l1 -> StronglySorted in_order l2 ->
  (forall z, z ∈ l1 <-> z ∈ l2) -> l1 = l2.
Proof.
  induction l1 as [|x1 l1 IH]; intros l2 H1 H2 Hmem.
  - destruct l2 as [|x2 l2]; [reflexivity|].
    exfalso. apply (elem_of_nil x2), Hmem. left.
  - destruct l2 as [|x2 l2].
    { exfalso. apply (elem_of_nil x1), Hmem. left. }
    apply StronglySorted_cons in H1 as [Hx1 H1].
    apply StronglySorted_cons in H2 as [Hx2 H2].
    rewrite Forall_forall in Hx1, Hx2.
    assert (Heq : x1 = x2).
    { assert (Ha : x1 ∈ x2 :: l2) by (apply Hmem; left).
      assert (Hb : x2 ∈ x1 :: l1) by (apply Hmem; left).
      apply elem_of_cons in Ha as [?|Ha]; [assumption|].
      apply elem_of_cons in Hb as [?|Hb]; [congruence|].
      exfalso. apply (in_order_asym x1 x2); auto. }
    subst x2. f_equal. apply IH; try assumption.
    intros z. split; intros Hz.
    + assert (Hin : z ∈ x1 :: l2) by (apply Hmem; right; exact Hz).
      apply elem_of_cons in Hin as [->|?]; [|assumption].
      exfalso. apply (in_order_irrefl x1), Hx1, Hz.
    + assert (Hin : z ∈ x1 :: l1) by (apply Hmem; right; exact Hz).
      apply elem_of_cons in Hin as [->|?]; [|assumption].
      exfalso. apply (in_order_irrefl x1), Hx2, Hz.
Qed.

(** The levels of a side after a delta, whatever its quantity. *)
Lemma elem_of_apply_delta ts l d z :
  StronglySorted in_order l ->
  (z ∈ apply_delta cmp ts l d <->
   (Qeq_bool (snd d) 0 = false /\
    z = {| price := fst d; quantity := snd d; timestamp := ts |}) \/
   (z ∈ l /\ ~ (price z == fst d)%Q)).
Proof.
  intros Hl. destruct (Qeq_bool (snd d) 0) eqn:Hq.
  - rewrite (apply_delta_remove cmp cmp_price cmp_zero)
      by (assumption || apply Qeq_bool_iff, Hq).
    split; [tauto|]. intros [[? _]|?]; [discriminate|assumption].
  - rewrite (apply_delta_upsert cmp cmp_flip cmp_trans cmp_price cmp_zero)
      by (assumption || (intros E; apply Qeq_bool_iff in E; congruence)).
    tauto.
Qed.

(** The later of two deltas at one price decides. *)
Lemma apply_delta_overwrite ts1 ts2 l d1 d2 :
  StronglySorted in_order l -> (fst d1 == fst d2)%Q ->
  apply_delta cmp ts2 (apply_delta cmp ts1 l d1) d2 = apply_delta cmp ts2 l d2.
Proof.
  intros Hl Hp.
  pose proof (apply_delta_in_order cmp cmp_flip cmp_trans cmp_price cmp_zero) as Hord.
  apply in_order_ext; auto.
  intros z. rewrite !elem_of_apply_delta by auto.
  split.
  - intros [H|[[[_ ->]|[Hz Hn1]] Hn2]]; [left; exact H| |right; auto].
    exfalso. apply Hn2. simpl. exact Hp.
  - intros [H|[Hz Hn]]; [left; exact H|].
    right. split; [|exact Hn]. right. split; [exact Hz|].
    intros E. apply Hn. rewrite E. exact Hp.
Qed.

(** Deltas at different prices can be applied in either order. *)
Lemma apply_delta_commute ts1 ts2 l d1 d2 :
  StronglySorted in_order l -> ~ (fst d1 == fst d2)%Q ->
  apply_delta cmp ts2 (apply_delta cmp ts1 l d1) d2 =
  apply_delta cmp ts1 (apply_delta cmp ts2 l d2) d1.
Proof.
  intros Hl Hp.
  pose proof (apply_delta_in_order cmp cmp_flip cmp_trans cmp_price cmp_zero) as Hord.
  apply in_order_ext; auto.
  intros z. rewrite !elem_of_apply_delta by auto.
  split.
  - intros [H|[[[Hq ->]|[Hz Hn1]] Hn2]].
    + right. split; [left; exact H|]. destruct H as [_ ->]. simpl.
      intros E. apply Hp. symmetry. exact E.
    + left. split; [exact Hq|reflexivity].
    + right. split; [right; split; assumption|exact Hn1].
  - intros [H|[[[Hq ->]|[Hz Hn1]] Hn2]].
    + right. split; [left; exact H|]. destruct H as [_ ->]. simpl. exact Hp.
    + left. split; [exact Hq|reflexivity].
    + right. split; [right; split; assumption|exact Hn1].
Qed.

(** Looking a price up after its delta. *)
Lemma findIndex_apply_delta ts l d :
  StronglySorted in_order l ->
  if Qeq_bool (snd d) 0
  then findIndex (fun lv => Qeq_bool (price lv) (fst d)) (apply_delta cmp ts l d) = None
  else exists i,
    findIndex (fun lv => Qeq_bool (price lv) (fst d)) (apply_delta cmp ts l d) = Some i /\
    apply_delta cmp ts l d !! i =
      Some {| price := fst d; quantity := snd d; timestamp := ts |}.
Proof.
  intros Hl. destruct (Qeq_bool (snd d) 0) eqn:Hq.
  - destruct (findIndex _ (apply_delta cmp ts l d)) as [i|] eqn:Hi; [exfalso|reflexivity].
    apply findIndex_Some_lookup in Hi as (x & Hx & Hpx).
    apply list_elem_of_lookup_2 in Hx.
    apply elem_of_apply_delta in Hx as [[Hq' _]|[_ Hn]]; [congruence| |exact Hl].
    apply Hn, Qeq_bool_iff, Hpx.
  - assert (Hin : {| price := fst d; quantity := snd d; timestamp := ts |}
                    ∈ apply_delta cmp ts l d).
    { apply elem_of_apply_delta; [exact Hl|]. left. auto. }
    destruct (findIndex_is_Some (fun lv => Qeq_bool (price lv) (fst d)) _ _ Hin)
      as [i Hi]; [apply Qeq_bool_refl|].
    exists i. split; [exact Hi|].
    apply findIndex_Some_lookup in Hi as (x & Hx & Hpx). rewrite Hx. f_equal.
    apply list_elem_of_lookup_2 in Hx.
    apply elem_of_apply_delta in Hx as [[_ ->]|[_ Hn]]; [reflexivity| |exact Hl].
    exfalso. apply Hn, Qeq_bool_iff, Hpx.
Qed.
End SideAlgebra.

Lemma has_price_findIndex p l :
  has_price p l = true <->
  exists i, findIndex (fun lv => Qeq_bool (price lv) p) l = Some i.
Proof.
  split.
  - intros H. destruct (findIndex _ l) as [i|] eqn:Hi; [eauto|].
    apply findIndex_price_None in Hi. apply has_price_false in Hi. congruence.
  - intros [i Hi]. apply findIndex_Some_lookup in Hi as (x & Hx & Hp).
    unfold has_price. apply existsb_exists. exists x. split; [|exact Hp].
    apply list_elem_of_In. eapply list_elem_of_lookup_2. exact Hx.
Qed.

(** X1.  On a side in order, of two deltas at the same price the later one
    decides: the side is as if the earlier one had not come.  In particular
    a delta that is repeated changes nothing the second time. *)
Theorem last_delta_wins (s : Side) (ts1 ts2 : Z) (l : list OrderbookLevel)
    (d1 d2 : Q * Q) :
  side_sorted s l = true -> (fst d1 == fst d2)%Q ->
  apply_delta (comparator s) ts2 (apply_delta (comparator s) ts1 l d1) d2 =
  apply_delta (comparator s) ts2 l d2.
Proof.
  rewrite side_sorted_spec. apply apply_delta_overwrite; comparator_facts.
Qed.

Lemma last_delta_wins_witness :
  apply_delta (comparator Ask) 2
    (apply_delta (comparator Ask) 1 [level 101 3 0; level 102 1 0] (101, 5)%Q)
    (101, 0)%Q =
  apply_delta (comparator Ask) 2 [level 101 3 0; level 102 1 0] (101, 0)%Q.
Proof.
  apply (last_delta_wins Ask 1 2 [level 101 3 0; level 102 1 0] (101, 5)%Q (101, 0)%Q);
    reflexivity.
Defined.

(** X2.  On a side in order that has no level at a price, a delta at that
    price followed by the delta that removes the price gives the side back,
    level for level. *)
Theorem insert_remove_round_trip (s : Side) (ts1 ts2 : Z)
    (l : list OrderbookLevel) (p q : Q) :
  side_sorted s l = true -> has_price p l = false ->
  apply_delta (comparator s) ts2 (apply_delta (comparator s) ts1 l (p, q)) (p, 0%Q) = l.
Proof.
  intros Hs Hp. rewrite side_sorted_spec in Hs.
  rewrite (apply_delta_overwrite (comparator s)) by (comparator_facts || assumption || reflexivity).
  apply apply_delta_absent; [reflexivity|exact Hp].
Qed.

Lemma insert_remove_round_trip_witness :
  apply_delta (comparator Bid) 2
    (apply_delta (comparator Bid) 1 [level 100 2 0; level 98 1 0] (99, 4)%Q)
    (99, 0)%Q =
  [level 100 2 0; level 98 1 0].
Proof.
  apply (insert_remove_round_trip Bid 1 2 [level 100 2 0; level 98 1 0] 99 4);
    reflexivity.
Defined.

(** X3.  On a side in order, two deltas at different prices give the same
    side in either order of application. *)
Theorem deltas_commute (s : Side) (ts1 ts2 : Z) (l : list OrderbookLevel)
    (d1 d2 : Q * Q) :
  side_sorted s l = true -> ~ (fst d1 == fst d2)%Q ->
  apply_delta (comparator s) ts2 (apply_delta (comparator s) ts1 l d1) d2 =
  apply_delta (comparator s) ts1 (apply_delta (comparator s) ts2 l d2) d1.
Proof.
  rewrite side_sorted_spec. apply apply_delta_commute; comparator_facts.
Qed.

Lemma deltas_commute_witness :
  apply_delta (comparator Bid) 2
    (apply_delta (comparator Bid) 1 [level 100 2 0] (99, 4)%Q) (100, 0)%Q =
  apply_delta (comparator Bid) 1
    (apply_delta (comparator Bid) 2 [level 100 2 0] (100, 0)%Q) (99, 4)%Q.
Proof.
  apply (deltas_commute Bid 1 2 [level 100 2 0] (99, 4)%Q (100, 0)%Q).
  - reflexivity.
  - vm_compute. discriminate.
Defined.

(** X4.  On a side in order, after a delta with a quantity other than 0 the
    search by price that the hook uses finds the level of the delta, with
    its quantity and timestamp; after a delta with quantity 0 the search
    finds nothing at that price. *)
Theorem lookup_after_delta (s : Side) (ts : Z) (l : list OrderbookLevel)
    (d : Q * Q) :
  side_sorted s l = true ->
  if Qeq_bool (snd d) 0
  then findIndex (fun lv => Qeq_bool (price lv) (fst d))
         (apply_delta (comparator s) ts l d) = None
  else exists i,
    findIndex (fun lv => Qeq_bool (price lv) (fst d))
      (apply_delta (comparator s) ts l d) = Some i /\
    apply_delta (comparator s) ts l d !! i =
      Some {| price := fst d; quantity := snd d; timestamp := ts |}.
Proof.
  rewrite side_sorted_spec. apply findIndex_apply_delta; comparator_facts.
Qed.

Lemma lookup_after_delta_witness :
  if Qeq_bool (snd (99, 4)%Q) 0
  then findIndex (fun lv => Qeq_bool (price lv) (fst (99, 4)%Q))
         (apply_delta (comparator Bid) 7 [level 100 2 0; level 98 1 0] (99, 4)%Q) = None
  else exists i,
    findIndex (fun lv => Qeq_bool (price lv) (fst (99, 4)%Q))
      (apply_delta (comparator Bid) 7 [level 100 2 0; level 98 1 0] (99, 4)%Q) = Some i /\
    apply_delta (comparator Bid) 7 [level 100 2 0; level 98 1 0] (99, 4)%Q !! i =
      Some {| price := fst (99, 4)%Q; quantity := snd (99, 4)%Q; timestamp := 7 |}.
Proof.
  apply (lookup_after_delta Bid 7 [level 100 2 0; level 98 1 0] (99, 4)%Q).
  reflexivity.
Defined.

(** X5.  A delta changes the length of a side by at most one, whatever the
    side and the comparator: one level less when it removes a price that is
    there, one more when it brings a price that is not, the same length
    otherwise.  The hook never trims a side. *)
Theorem side_length_after_delta (cmp : OrderbookLevel -> OrderbookLevel -> Q)
    (ts : Z) (l : list OrderbookLevel) (d : Q * Q) :
  length (apply_delta cmp ts l d) =
  match Qeq_bool (snd d) 0, has_price (fst d) l with
  | true, true => (length l - 1)%nat
  | true, false => length l
  | false, true => length l
  | false, false => S (length l)
  end.
Proof.
  unfold apply_delta.
  destruct (findIndex _ l) as [i|] eqn:Hi.
  - assert (Hp : has_price (fst d) l = true) by (apply has_price_findIndex; eauto).
    rewrite Hp.
    apply findIndex_Some_split in Hi as (l1 & x & l2 & -> & _ & _ & Hd & Ha).
    destruct (Qeq_bool (snd d) 0).
    + rewrite Hd, !length_app. simpl. lia.
    + rewrite Ha, !length_app. reflexivity.
  - apply findIndex_price_None, has_price_false in Hi. rewrite Hi.
    destruct (Qeq_bool (snd d) 0); [reflexivity|].
    rewrite length_sort. unfold push. rewrite length_app. simpl. lia.
Qed.

(** * More invariants of a run *)

Lemma length_append_snapshot prev x :
  length (append_snapshot prev x) = Nat.min (S (length prev)) 60.
Proof. rewrite append_snapshot_drop, length_drop, length_app. simpl. lia. Qed.

Lemma handle_frame_orderbook symbol ev st :
  match ev with
  | WsMessage _ _ _ => False
  | FetchSettled r now => load_snapshot r now st = None
  | _ => True
  end ->
  orderbook (handle symbol ev st) = orderbook st.
Proof.
  destruct ev; simpl; intros H; auto; try contradiction.
  - destruct (connectWebSocket_frame symbol (initializeOrderbook r now st))
      as (_ & _ & -> & _).
    rewrite (initializeOrderbook_failed r now st H). reflexivity.
  - destruct (connectWebSocket_frame symbol st) as (_ & _ & -> & _). reflexivity.
  - destruct (wsRef st) as [j|]; auto.
    unfold closing. destruct (sockets st !! j) as [[| | |]|]; auto.
Qed.

Lemma render_length h pend : forall prev,
  (length prev <= 60)%nat ->
  (length (foldl (run_updater h) prev pend) <= 60)%nat.
Proof.
  induction pend as [|[ts o] pend IH]; intros prev Hprev; simpl; [exact Hprev|].
  apply IH. rewrite run_updater_snapshot, length_append_snapshot. lia.
Qed.

Lemma handle_history_length symbol ev st :
  (length (historicalData st) <= 60)%nat ->
  (length (historicalData (handle symbol ev st)) <= 60)%nat.
Proof.
  intros Hst.
  destruct ev as [|r now|i|i m now|i|i| | |];
    try (framed symbol st;
         match goal with H : historicalData _ = historicalData st |- _ => rewrite H end;
         exact Hst).
  - destruct (fetch_failed r) eqn:Hr.
    + apply (load_snapshot_failed r now st) in Hr.
      destruct (handle_frame symbol (FetchSettled r now) st Hr) as (_ & _ & ->).
      exact Hst.
    + rewrite handle_loaded by exact Hr. simpl. lia.
  - simpl. rewrite onmessage_history_eq. exact Hst.
  - simpl. apply render_length, Hst.
Qed.

Lemma run_history_length symbol evs st :
  (length (historicalData st) <= 60)%nat ->
  (length (historicalData (run symbol evs st)) <= 60)%nat.
Proof.
  revert st. induction evs as [|ev evs IH]; intros st Hst; simpl; [exact Hst|].
  apply IH, handle_history_length, Hst.
Qed.

(** X6.  Whatever events the hook has gone through since its start,
    snapshot reloads and failures included, its history holds at most 60
    entries. *)
Theorem history_never_exceeds_60 (symbol : string) (evs : list Event) :
  (length (historicalData (run symbol evs initial)) <= 60)%nat.
Proof. apply run_history_length. simpl. lia. Qed.

Lemma load_snapshot_orderbook r now st st' :
  load_snapshot r now st = Some st' -> orderbook st' = orderbookRef st'.
Proof.
  destruct r as [|status|status data]; simpl; try discriminate.
  destruct (d_bids data); simpl; [|discriminate].
  destruct (d_asks data); simpl; [|discriminate].
  intros [= <-]. reflexivity.
Qed.

Lemma handle_shows_live symbol ev st :
  shows_live st -> shows_live (handle symbol ev st).
Proof.
  intros Hst.
  assert (Hframe : arrays (handle symbol ev st) = arrays st ->
                   orderbookRef (handle symbol ev st) = orderbookRef st ->
                   orderbook (handle symbol ev st) = orderbook st ->
                   shows_live (handle symbol ev st)).
  { unfold shows_live. intros -> -> ->. exact Hst. }
  destruct ev as [|r now|i|i m now|i|i| | |];
    try (framed symbol st; apply Hframe;
         [assumption|assumption|apply handle_frame_orderbook; exact I]).
  - destruct (load_snapshot r now st) as [st'|] eqn:Hload.
    + left. simpl. unfold initializeOrderbook. rewrite Hload.
      destruct (connectWebSocket_frame symbol st') as (_ & -> & -> & _).
      eapply load_snapshot_orderbook, Hload.
    + destruct (handle_frame symbol (FetchSettled r now) st Hload) as (Ha & Hr & _).
      apply Hframe; [assumption|assumption|].
      apply (handle_frame_orderbook symbol (FetchSettled r now)), Hload.
  - simpl. destruct (Z.le_gt_cases (U m) (lastUpdateId (orderbookRef st))) as [Hle|Hgt].
    + rewrite onmessage_stale by exact Hle. exact Hst.
    + left. apply displayed_book_is_live_book. lia.
  - apply Hframe; reflexivity.
Qed.

Lemma run_shows_live symbol evs st :
  shows_live st -> shows_live (run symbol evs st).
Proof.
  revert st. induction evs as [|ev evs IH]; intros st Hst; simpl; [exact Hst|].
  apply IH, handle_shows_live, Hst.
Qed.

Lemma shows_live_view st :
  shows_live st -> view (arrays st) (orderbook st) = book st.
Proof.
  unfold book. intros [->|(-> & -> & ->)]; reflexivity.
Qed.


(** * The clock and the history *)










(** * What the hook asks of the world *)

Lemma count_app {A} (p : A -> bool) l1 l2 :
  count p (l1 ++ l2) = (count p l1 + count p l2)%nat.
Proof. induction l1 as [|x l1 IH]; simpl; [reflexivity|]. rewrite IH. lia. Qed.

Lemma accounted_trans f1 t1 o1 f2 t2 o2 st1 st2 st3 :
  accounted f1 t1 o1 st1 st2 -> accounted f2 t2 o2 st2 st3 ->
  accounted (f1 + f2) (t1 + t2) (o1 + o2) st1 st3.
Proof.
  intros (Hf1 & Ht1 & Ho1 & Hs1 & Hv1) (Hf2 & Ht2 & Ho2 & Hs2 & Hv2).
  unfold accounted. rewrite Hf2, Ht2, Ho2, Hs2, Hf1, Ht1, Ho1, Hs1.
  repeat apply conj; auto; lia.
Qed.

Lemma connectWebSocket_accounted symbol st :
  accounted 0 0 (if is_open st then 0 else 1) st (connectWebSocket symbol st).
Proof.
  unfold connectWebSocket, accounted, fetches, timers, opened, ws_valid.
  destruct (is_open st); simpl.
  - repeat apply conj; auto; lia.
  - rewrite !count_app, length_app. simpl. repeat apply conj; auto; lia.
Qed.

Lemma initializeOrderbook_accounted r now st :
  accounted 0 0 0 st (initializeOrderbook r now st) /\
  is_open (initializeOrderbook r now st) = is_open st.
Proof.
  unfold initializeOrderbook.
  destruct (load_snapshot r now st) as [st'|] eqn:Hload.
  - apply load_snapshot_Some in Hload
      as (? & ? & ? & ? & _ & _ & _ & _ & _ & _ & Ht & _ & Hw & Hs).
    unfold accounted, fetches, timers, opened, ws_valid, is_open.
    rewrite Ht, Hw, Hs. repeat apply conj; auto; lia.
  - unfold accounted, fetches, timers, opened, ws_valid, is_open. simpl.
    rewrite !count_app. simpl. repeat apply conj; auto; lia.
Qed.

Lemma handle_accounted symbol ev st :
  exists o,
    accounted (if is_mount ev then 1 else 0) (if is_close ev then 1 else 0) o
      st (handle symbol ev st).
Proof.
  destruct ev as [|r now|i|i m now|i|i| | |]; simpl.
  - exists 0%nat. unfold accounted, fetches, timers, opened, ws_valid. simpl.
    rewrite !count_app. simpl. repeat apply conj; auto; lia.
  - destruct (initializeOrderbook_accounted r now st) as [H1 _].
    exists (0 + (if is_open (initializeOrderbook r now st) then 0 else 1))%nat.
    exact (accounted_trans 0 0 0 0 0 _ st _ _ H1 (connectWebSocket_accounted symbol _)).
  - exists 0%nat. unfold accounted, fetches, timers, opened, ws_valid. simpl.
    rewrite length_insert. repeat apply conj; auto; lia.
  - exists 0%nat. destruct (onmessage_trace m now st) as (Ht & Hs & Hw & _).
    unfold accounted, fetches, timers, opened, ws_valid.
    rewrite Ht, Hs, Hw. repeat apply conj; auto; lia.
  - exists 0%nat. unfold accounted, fetches, timers, opened, ws_valid. simpl.
    repeat apply conj; auto; lia.
  - exists 0%nat. unfold accounted, fetches, timers, opened, ws_valid. simpl.
    rewrite !count_app, length_insert. simpl. repeat apply conj; auto; lia.
  - eexists. apply connectWebSocket_accounted.
  - exists 0%nat. unfold accounted, fetches, timers, opened, ws_valid.
    destruct (wsRef st) as [j|] eqn:Hw;
      [|simpl; rewrite ?Hw; repeat apply conj; auto; lia].
    unfold closing. destruct (sockets st !! j) as [[| | |]|]; simpl;
      rewrite ?count_app, ?length_insert, ?Hw; simpl; repeat apply conj; auto; lia.
  - exists 0%nat. unfold accounted, fetches, timers, opened, ws_valid. simpl.
    repeat apply conj; auto; lia.
Qed.

Lemma run_accounted symbol evs : forall st,
  exists o,
    accounted (count is_mount evs) (count is_close evs) o st (run symbol evs st).
Proof.
  induction evs as [|ev evs IH]; intros st; simpl.
  - exists 0%nat. unfold accounted. repeat apply conj; auto; lia.
  - destruct (handle_accounted symbol ev st) as [o1 H1].
    destruct (IH (handle symbol ev st)) as [o2 H2].
    exists (o1 + o2)%nat. eapply accounted_trans; eassumption.
Qed.

(** X9.  Along any run the hook has requested exactly as many snapshots as
    it was mounted: no message, failure, close or timer makes it request
    one. *)
Theorem snapshot_requested_at_mount_only (symbol : string) (evs : list Event) :
  fetches (run symbol evs initial) = count is_mount evs.
Proof.
  destruct (run_accounted symbol evs initial) as [o (Hf & _)].
  rewrite Hf. reflexivity.
Qed.

(** X10.  Along any run the hook has set exactly one timer for each close
    event of a socket, and none for any other event. *)
Theorem one_timer_per_close (symbol : string) (evs : list Event) :
  timers (run symbol evs initial) = count is_close evs.
Proof.
  destruct (run_accounted symbol evs initial) as [o (_ & Ht & _)].
  rewrite Ht. reflexivity.
Qed.

(** X11.  The cleanup of the effect closes the socket held in [wsRef], and
    the close event of that socket starts the same reconnection as any
    other close: when its timer fires a new socket is opened.  A cleanup
    does not end the reconnecting. *)
Theorem reconnect_after_cleanup (symbol : string) (st : HookState) (i : nat) :
  wsRef st = Some i ->
  trace (run symbol [Cleanup; WsClose i; TimerFires] st) =
  trace st ++ [WsCloseCall i; SetTimeout CbConnectWebSocket 3000; NewWebSocket symbol].
Proof.
  intros Hws.
  assert (H1 : wsRef (handle symbol Cleanup st) = Some i /\
               trace (handle symbol Cleanup st) = trace st ++ [WsCloseCall i]).
  { simpl. rewrite Hws. unfold closing.
    destruct (sockets st !! i) as [[| | |]|]; simpl; auto. }
  destruct H1 as [Hws1 Ht1].
  destruct (reconnect_cycle_step symbol i _ Hws1) as (Ht & _).
  unfold reconnect_cycle in Ht. rewrite Hws1 in Ht.
  change (run symbol [Cleanup; WsClose i; TimerFires] st)
    with (handle symbol TimerFires (handle symbol (WsClose i) (handle symbol Cleanup st))).
  rewrite Ht, Ht1, <- app_assoc. reflexivity.
Qed.

Lemma reconnect_after_cleanup_witness :
  trace (run "BTCUSDT" [Cleanup; WsClose 0; TimerFires] live_v10) =
  trace live_v10 ++
    [WsCloseCall 0; SetTimeout CbConnectWebSocket 3000; NewWebSocket "BTCUSDT"].
Proof. apply (reconnect_after_cleanup "BTCUSDT" live_v10 0). reflexivity. Defined.

Lemma onmessage_no_deltas_arrays m now st :
  default [] (b m) = [] -> default [] (a m) = [] ->
  arrays (onmessage m now st) = arrays st.
Proof.
  intros Hb Ha. unfold onmessage. destruct (U m <=? _)%Z; [reflexivity|]. simpl.
  rewrite !list_alter_id; [reflexivity| |];
    intros l; unfold update_bids, update_asks, update_side; rewrite ?Hb, ?Ha; reflexivity.
Qed.

(** X12.  A message that passes the test of the hook but carries no delta
    (the arrays are missing or empty) leaves both sides of the book as they
    are; all the same it moves the version to its final id, and the render
    after it gives the history one entry more than a render without the
    message would: a snapshot, stamped with the reading of the message, of
    the unchanged sides. *)
Theorem message_without_deltas (symbol : string) (evs : list Event) (i : nat)
    (m : DepthUpdate) (now : Z) :
  let st := run symbol evs initial in
  let st' := handle symbol (WsMessage i m now) st in
  default [] (b m) = [] -> default [] (a m) = [] ->
  (v_version (book st) < U m)%Z ->
  book st' = {| v_bids := v_bids (book st); v_asks := v_asks (book st);
                v_version := u m |} /\
  historicalData (handle symbol Render st') =
    append_snapshot (historicalData (handle symbol Render st))
                    (snapshot_of now (book st)).
Proof.
  intros st st' Hb Ha Hv. subst st'.
  change (handle symbol (WsMessage i m now) st) with (onmessage m now st).
  assert (Hbook : book (onmessage m now st) =
                  {| v_bids := v_bids (book st); v_asks := v_asks (book st);
                     v_version := u m |}).
  { rewrite onmessage_book; [|apply run_refs_ok, initial_ok|exact Hv].
    unfold update_bids, update_asks, update_side. rewrite Hb, Ha. reflexivity. }
  split; [exact Hbook|].
  destruct (onmessage_history m now st Hv) as [Hh Hp].
  change (handle symbol Render (onmessage m now st)) with (render (onmessage m now st)).
  change (handle symbol Render st) with (render st).
  unfold render. simpl.
  rewrite Hh, Hp, foldl_app, (onmessage_no_deltas_arrays m now st Hb Ha). simpl.
  rewrite run_updater_snapshot. f_equal.
  rewrite <- (onmessage_no_deltas_arrays m now st Hb Ha).
  change (view (arrays (onmessage m now st)) (orderbookRef (onmessage m now st)))
    with (book (onmessage m now st)).
  rewrite Hbook. reflexivity.
Qed.

Lemma message_without_deltas_witness :
  let st := run "BTCUSDT" [Mount; FetchSettled snapshot_v10 1000; WsOpen 0] initial in
  let m := {| U := 11; u := 13; b := None; a := Some [] |} in
  let st' := handle "BTCUSDT" (WsMessage 0 m 2000) st in
  book st' = {| v_bids := v_bids (book st); v_asks := v_asks (book st);
                v_version := u m |} /\
  historicalData (handle "BTCUSDT" Render st') =
    append_snapshot (historicalData (handle "BTCUSDT" Render st))
                    (snapshot_of 2000 (book st)).
Proof.
  apply (message_without_deltas "BTCUSDT"
           [Mount; FetchSettled snapshot_v10 1000; WsOpen 0] 0
           {| U := 11; u := 13; b := None; a := Some [] |} 2000);
    reflexivity.
Defined.

(** * The statistics of the main component *)

Lemma Math_max_spec x xs :
  Math_max x xs ∈ x :: xs /\ forall y, y ∈ x :: xs -> (y <= Math_max x xs)%Q.
Proof.
  unfold Math_max. revert x. induction xs as [|z xs IH]; intros x; simpl.
  - split; [left|]. intros y Hy. apply list_elem_of_singleton in Hy as ->. lra.
  - destruct (IH (if Qlt_bool x z then z else x)) as [Hin Hle].
    assert (Hx : (x <= if Qlt_bool x z then z else x)%Q /\
                 (z <= if Qlt_bool x z then z else x)%Q).
    { destruct (Qlt_bool x z) eqn:E.
      - apply Qlt_bool_iff in E. lra.
      - split; [lra|]. destruct (Qlt_le_dec x z) as [Hlt|?]; [|assumption].
        apply Qlt_bool_iff in Hlt. congruence. }
    split.
    + apply elem_of_cons in Hin as [->|Hin].
      * destruct (Qlt_bool x z); [right; left|left].
      * right. right. exact Hin.
    + intros y Hy.
      assert (Hm : ((if Qlt_bool x z then z else x) <=
                    foldl (fun m y0 => if Qlt_bool m y0 then y0 else m)
                      (if Qlt_bool x z then z else x) xs)%Q) by (apply Hle; left).
      apply elem_of_cons in Hy as [->|Hy]; [lra|].
      apply elem_of_cons in Hy as [->|Hy]; [lra|].
      apply Hle. right. exact Hy.
Qed.

Lemma Math_min_spec x xs :
  Math_min x xs ∈ x :: xs /\ forall y, y ∈ x :: xs -> (Math_min x xs <= y)%Q.
Proof.
  unfold Math_min. revert x. induction xs as [|z xs IH]; intros x; simpl.
  - split; [left|]. intros y Hy. apply list_elem_of_singleton in Hy as ->. lra.
  - destruct (IH (if Qlt_bool z x then z else x)) as [Hin Hle].
    assert (Hx : ((if Qlt_bool z x then z else x) <= x)%Q /\
                 ((if Qlt_bool z x then z else x) <= z)%Q).
    { destruct (Qlt_bool z x) eqn:E.
      - apply Qlt_bool_iff in E. lra.
      - split; [lra|]. destruct (Qlt_le_dec z x) as [Hlt|?]; [|assumption].
        apply Qlt_bool_iff in Hlt. congruence. }
    split.
    + apply elem_of_cons in Hin as [->|Hin].
      * destruct (Qlt_bool z x); [right; left|left].
      * right. right. exact Hin.
    + intros y Hy.
      assert (Hm : (foldl (fun m y0 => if Qlt_bool y0 m then y0 else m)
                      (if Qlt_bool z x then z else x) xs <=
                    (if Qlt_bool z x then z else x))%Q) by (apply Hle; left).
      apply elem_of_cons in Hy as [->|Hy]; [lra|].
      apply elem_of_cons in Hy as [->|Hy]; [lra|].
      apply Hle. right. exact Hy.
Qed.

Lemma Math_max_first p ps :
  forallb (fun q => Qlt_bool q p) ps = true -> Math_max p ps = p.
Proof.
  unfold Math_max. induction ps as [|q ps IH]; simpl; [reflexivity|].
  intros H. apply andb_true_iff in H as [Hq Hps].
  apply Qlt_bool_iff in Hq.
  destruct (Qlt_bool p q) eqn:E; [apply Qlt_bool_iff in E; lra|].
  apply IH, Hps.
Qed.

Lemma Math_min_first p ps :
  forallb (Qlt_bool p) ps = true -> Math_min p ps = p.
Proof.
  unfold Math_min. induction ps as [|q ps IH]; simpl; [reflexivity|].
  intros H. apply andb_true_iff in H as [Hq Hps].
  apply Qlt_bool_iff in Hq.
  destruct (Qlt_bool q p) eqn:E; [apply Qlt_bool_iff in E; lra|].
  apply IH, Hps.
Qed.

(** X13.  For any book, in order or not: the number [spread] computes as
    best bid, before any formatting, is the price of one of the bids and no
    bid has a higher price; the number it computes as best ask is the price
    of one of the asks and no ask has a lower price; neither is computed
    when its side is empty, and then the spread is 0. *)
Theorem best_prices (minus : Q -> Q -> Q) (o : BookView) :
  match bestBid o with
  | Some m => (exists lv, lv ∈ v_bids o /\ price lv = m) /\
              forall lv, lv ∈ v_bids o -> (price lv <= m)%Q
  | None => v_bids o = [] /\ spread minus o = 0%Q
  end /\
  match bestAsk o with
  | Some m => (exists lv, lv ∈ v_asks o /\ price lv = m) /\
              forall lv, lv ∈ v_asks o -> (m <= price lv)%Q
  | None => v_asks o = [] /\ spread minus o = 0%Q
  end.
Proof.
  unfold spread, bestBid, bestAsk. split.
  - destruct (v_bids o) as [|x l]; [split; reflexivity|]. csimpl.
    destruct (Math_max_spec (price x) (price <$> l)) as [Hin Hle]. split.
    + change (price x :: (price <$> l)) with (price <$> (x :: l)) in Hin.
      apply list_elem_of_fmap in Hin as (lv & Heq & Hlv). eauto.
    + intros lv Hlv. apply Hle.
      change (price x :: (price <$> l)) with (price <$> (x :: l)).
      apply list_elem_of_fmap_2, Hlv.
  - destruct (v_asks o) as [|x l].
    { split; [reflexivity|]. csimpl. destruct (price <$> v_bids o); reflexivity. }
    csimpl.
    destruct (Math_min_spec (price x) (price <$> l)) as [Hin Hle]. split.
    + change (price x :: (price <$> l)) with (price <$> (x :: l)) in Hin.
      apply list_elem_of_fmap in Hin as (lv & Heq & Hlv). eauto.
    + intros lv Hlv. apply Hle.
      change (price x :: (price <$> l)) with (price <$> (x :: l)).
      apply list_elem_of_fmap_2, Hlv.
Qed.

Lemma bestBid_descending l a v :
  descending l = true ->
  bestBid {| v_bids := l; v_asks := a; v_version := v |} = price <$> head l.
Proof.
  unfold bestBid, descending. simpl. destruct l as [|x l]; [reflexivity|]. csimpl.
  intros H. apply andb_true_iff in H as [H _].
  rewrite Math_max_first by exact H. reflexivity.
Qed.

Lemma bestAsk_ascending l bd v :
  ascending l = true ->
  bestAsk {| v_bids := bd; v_asks := l; v_version := v |} = price <$> head l.
Proof.
  unfold bestAsk, ascending. simpl. destruct l as [|x l]; [reflexivity|]. csimpl.
  intros H. apply andb_true_iff in H as [H _].
  rewrite Math_min_first by exact H. reflexivity.
Qed.

(** X14.  Along a run in which every loaded snapshot is in order, the
    number [spread] computes as best bid is the price of the first bid of
    the live book and the one it computes as best ask the price of its first
    ask; the spread is the result of the subtraction of line 553 on these
    two prices, however that subtraction rounds, and 0 while a side is
    empty. *)
Theorem spread_of_ordered_book (minus : Q -> Q -> Q) (symbol : string)
    (evs : list Event) :
  forallb event_ordered evs = true ->
  let st := run symbol evs initial in
  let o := view (arrays st) (orderbook st) in
  bestBid o = price <$> head (v_bids (book st)) /\
  bestAsk o = price <$> head (v_asks (book st)) /\
  spread minus o =
    match head (v_bids (book st)), head (v_asks (book st)) with
    | Some bid, Some ask => minus (price ask) (price bid)
    | _, _ => 0%Q
    end.
Proof.
  intros Hevs st o.
  assert (Hshown : o = book st).
  { apply shows_live_view, run_shows_live. right. auto. }
  destruct initial_ok as [Hok0 Hord0].
  destruct (run_ordered symbol evs initial Hevs Hok0 Hord0) as [_ [Hb Ha]].
  change (descending (v_bids (book st)) = true) in Hb.
  change (ascending (v_asks (book st)) = true) in Ha.
  rewrite Hshown. clear Hshown.
  destruct (book st) as [bd ak v]. simpl in Hb, Ha |- *.
  pose proof (bestBid_descending bd ak v Hb) as HB.
  pose proof (bestAsk_ascending ak bd v Ha) as HA.
  split; [exact HB|]. split; [exact HA|].
  unfold spread. rewrite HB, HA.
  destruct (head bd), (head ak); reflexivity.
Qed.

Lemma spread_of_ordered_book_witness :
  let st := run "BTCUSDT" [Mount; FetchSettled snapshot_A 1000; WsOpen 0;
                           WsMessage 0 diff_gap 2000; Render] initial in
  let o := view (arrays st) (orderbook st) in
  bestBid o = price <$> head (v_bids (book st)) /\
  bestAsk o = price <$> head (v_asks (book st)) /\
  spread Qminus o =
    match head (v_bids (book st)), head (v_asks (book st)) with
    | Some bid, Some ask => Qminus (price ask) (price bid)
    | _, _ => 0%Q
    end.
Proof.
  apply (spread_of_ordered_book Qminus "BTCUSDT"
           [Mount; FetchSettled snapshot_A 1000; WsOpen 0; WsMessage 0 diff_gap 2000;
            Render]).
  reflexivity.
Defined.

(** * The scales of the drawing *)

(** X15.  The price range of the drawing is absent exactly when the book
    shown has no level.  Otherwise its two ends are prices of levels of the
    book and every price of the book lies between them, so the two ends are
    equal only when all levels have the same price. *)
Theorem price_range_bounds (o : BookView) :
  match priceRange o with
  | None => v_bids o = [] /\ v_asks o = []
  | Some (lo, hi) =>
      (exists lv, lv ∈ v_bids o ++ v_asks o /\ price lv = lo) /\
      (exists lv, lv ∈ v_bids o ++ v_asks o /\ price lv = hi) /\
      (forall lv, lv ∈ v_bids o ++ v_asks o -> (lo <= price lv <= hi)%Q) /\
      ((lo == hi)%Q -> forall lv, lv ∈ v_bids o ++ v_asks o -> (price lv == lo)%Q)
  end.
Proof.
  unfold priceRange.
  destruct (v_bids o ++ v_asks o) as [|x l] eqn:Hall.
  - apply app_eq_nil in Hall. exact Hall.
  - csimpl.
    destruct (Math_max_spec (price x) (price <$> l)) as [Hmax Hle].
    destruct (Math_min_spec (price x) (price <$> l)) as [Hmin Hge].
    change (price x :: (price <$> l)) with (price <$> (x :: l)) in *.
    assert (Hb : forall lv, lv ∈ x :: l ->
              (Math_min (price x) (price <$> l) <= price lv <=
               Math_max (price x) (price <$> l))%Q).
    { intros lv Hlv. split; [apply Hge|apply Hle]; apply list_elem_of_fmap_2, Hlv. }
    repeat apply conj.
    + apply list_elem_of_fmap in Hmin as (lv & Heq & Hlv). eauto.
    + apply list_elem_of_fmap in Hmax as (lv & Heq & Hlv). eauto.
    + exact Hb.
    + intros Heq lv Hlv. specialize (Hb lv Hlv). lra.
Qed.

Lemma elem_of_allQuantities h s lv :
  s ∈ h -> lv ∈ h_bids s ++ h_asks s -> quantity lv ∈ allQuantities h.
Proof.
  intros Hs Hlv. unfold allQuantities. apply list_elem_of_In, in_flat_map.
  exists s. split; [apply list_elem_of_In, Hs|].
  apply list_elem_of_In, list_elem_of_fmap_2, Hlv.
Qed.

(** X16.  The quantity scale of the drawing is at least 1 and at least the
    quantity of every level of every entry of the history, whatever the
    history: the scale by which heights are divided is never 0. *)
Theorem max_quantity_bounds (h : list HistoricalData) :
  (1 <= maxQuantity h)%Q /\
  forall s lv, s ∈ h -> lv ∈ h_bids s ++ h_asks s ->
    (quantity lv <= maxQuantity h)%Q.
Proof.
  unfold maxQuantity.
  destruct (allQuantities h) as [|q qs] eqn:Hall.
  - split; [unfold Math_max; simpl; lra|].
    intros s lv Hs Hlv. pose proof (elem_of_allQuantities h s lv Hs Hlv) as Hin.
    rewrite Hall in Hin. apply elem_of_nil in Hin. contradiction.
  - destruct (Math_max_spec q (qs ++ [1%Q])) as [_ Hle]. split.
    + apply Hle. right. apply elem_of_app. right. left.
    + intros s lv Hs Hlv. pose proof (elem_of_allQuantities h s lv Hs Hlv) as Hin.
      rewrite Hall in Hin. apply Hle.
      apply elem_of_cons in Hin as [->|Hin]; [left|right].
      apply elem_of_app. left. exact Hin.
Qed.




(** * The venue list *)

Lemma toggleVenue_cons venueId v vs :
  Venues.toggleVenue venueId (v :: vs) =
  (if String.eqb (Venues.id v) venueId
   then {| Venues.id := Venues.id v; Venues.name := Venues.name v;
           Venues.color := Venues.color v;
           Venues.enabled := negb (Venues.enabled v) |}
   else v) :: Venues.toggleVenue venueId vs.
Proof. reflexivity. Qed.

(** X18.  Toggling the same venue twice gives the list of venues back, for
    any list and any id. *)
Theorem toggle_twice (venueId : string) (vs : list Venues.Venue) :
  Venues.toggleVenue venueId (Venues.toggleVenue venueId vs) = vs.
Proof.
  induction vs as [|v vs IH]; [reflexivity|].
  rewrite !toggleVenue_cons, IH. f_equal.
  destruct v as [i n c e]. simpl.
  destruct (String.eqb i venueId) eqn:E; simpl; [|rewrite E; reflexivity].
  rewrite E, negb_involutive. reflexivity.
Qed.

(** X19.  Two toggles give the same list in either order, for any list and
    any two ids. *)
Theorem toggles_commute (i j : string) (vs : list Venues.Venue) :
  Venues.toggleVenue i (Venues.toggleVenue j vs) =
  Venues.toggleVenue j (Venues.toggleVenue i vs).
Proof.
  induction vs as [|v vs IH]; [reflexivity|].
  rewrite !toggleVenue_cons, IH. f_equal.
  destruct v as [k n c e]. simpl.
  destruct (String.eqb k i) eqn:Ei, (String.eqb k j) eqn:Ej; simpl;
    rewrite ?Ei, ?Ej; reflexivity.
Qed.

Lemma toggleVenue_absent venueId vs :
  venueId ∉ Venues.id <$> vs -> Venues.toggleVenue venueId vs = vs.
Proof.
  induction vs as [|v vs IH]; [reflexivity|].
  rewrite fmap_cons, not_elem_of_cons. intros [Hne Hvs].
  rewrite toggleVenue_cons, IH by exact Hvs.
  destruct (String.eqb (Venues.id v) venueId) eqn:E; [|reflexivity].
  apply String.eqb_eq in E. congruence.
Qed.

(** X20.  In a list whose ids are all different, toggling the id of the
    venue at position [k] changes that position only: there the venue keeps
    its id, name and colour and its [enabled] is negated.  Toggling an id
    that no venue has changes nothing. *)
Theorem toggle_changes_one (vs : list Venues.Venue) (k : nat) (v : Venues.Venue) :
  NoDup (Venues.id <$> vs) -> vs !! k = Some v ->
  Venues.toggleVenue (Venues.id v) vs =
    <[k := {| Venues.id := Venues.id v; Venues.name := Venues.name v;
              Venues.color := Venues.color v;
              Venues.enabled := negb (Venues.enabled v) |}]> vs /\
  forall venueId, venueId ∉ Venues.id <$> vs -> Venues.toggleVenue venueId vs = vs.
Proof.
  intros Hnd Hk. split; [|intros venueId; apply toggleVenue_absent].
  revert k Hnd Hk. induction vs as [|w vs IH]; intros k Hnd Hk; [discriminate|].
  rewrite fmap_cons in Hnd. apply NoDup_cons in Hnd as [Hw Hnd].
  rewrite toggleVenue_cons. destruct k as [|k]; simpl in Hk.
  - injection Hk as ->. rewrite String.eqb_refl. simpl. f_equal.
    apply toggleVenue_absent, Hw.
  - simpl. rewrite (IH k Hnd Hk). f_equal.
    destruct (String.eqb (Venues.id w) (Venues.id v)) eqn:E; [|reflexivity].
    apply String.eqb_eq in E. exfalso. apply Hw. rewrite E.
    apply list_elem_of_fmap_2. eapply list_elem_of_lookup_2. exact Hk.
Qed.

Lemma toggle_changes_one_witness :
  Venues.toggleVenue "okx" Venues.venues =
    <[1%nat := {| Venues.id := "okx"; Venues.name := "OKX";
                  Venues.color := "#00d4aa"; Venues.enabled := true |}]> Venues.venues /\
  forall venueId, venueId ∉ Venues.id <$> Venues.venues ->
    Venues.toggleVenue venueId Venues.venues = Venues.venues.
Proof.
  apply (toggle_changes_one Venues.venues 1
           {| Venues.id := "okx"; Venues.name := "OKX";
              Venues.color := "#00d4aa"; Venues.enabled := false |}).
  - apply (bool_decide_unpack _). vm_compute. exact I.
  - reflexivity.
Defined.
